(** * UranButeel 2.0: hire workflow, milestone dashboard and mock QPay endpoint

    A shallow embedding of the three pieces of the application that carry
    logic:

    - [pages/api/qpay.ts]: the in-memory invoice endpoint ([Module QPay]);
    - [pages/manage-jobs/[id].tsx]: proposal review and [handleHire]
      ([Module Hire]);
    - [pages/contracts/[id].tsx]: the contract dashboard and
      [updateMilestoneStatus] ([Module Dashboard]).

    Supabase tables are lists of rows, a filtered [update] is a [map] over
    the rows, and every call to the store takes the answer of the store (an
    optional error) as an argument.  React state is a record; a handler is a
    function from the state and the store to the new state and store. *)

From stdpp Require Import gmap strings list pretty.
From Stdlib Require Import QArith.

Close Scope Q_scope.
Open Scope string_scope.
Open Scope list_scope.
Set Warnings "-register-all".

(** ** JavaScript values *)

Module Js.

(** A JavaScript number.  Finite doubles are rationals; [JSON.parse] can also
    overflow to an infinity, and [NaN] is kept for completeness. *)
Inductive number :=
| Finite (q : Q)
| Infinity (negative : bool)
| NaN.

Global Instance Q_eq_dec : EqDecision Q.
Proof. solve_decision. Defined.

Global Instance number_eq_dec : EqDecision number.
Proof. solve_decision. Defined.

(** The values a parsed request body or one of its fields can be. *)
Inductive value :=
| Undefined
| Null
| Bool (b : bool)
| Num (n : number)
| Str (s : string)
| Arr (items : list value)
| Obj (fields : list (string * value)).

(** [!v] is [negb (truthy v)]: [undefined], [null], [false], [0], [NaN] and
    the empty string are falsy, everything else (objects and arrays
    included) is truthy. *)
Definition truthy (v : value) : bool :=
  match v with
  | Undefined | Null => false
  | Bool b => b
  | Num (Finite q) => negb (Qeq_bool q 0)
  | Num (Infinity _) => true
  | Num NaN => false
  | Str s => negb (String.eqb s "")
  | Arr _ | Obj _ => true
  end.

Fixpoint assoc (k : string) (fields : list (string * value)) : value :=
  match fields with
  | [] => Undefined
  | (k', v) :: rest => if String.eqb k k' then v else assoc k rest
  end.

(** Reading property [k] of [v] as the destructuring
    [const { k } = v] does it: [undefined] and [null] throw a [TypeError]
    ([None]); an object gives its own field.  The keys read by the endpoint
    ([amount], [contractId], [milestoneId]) are on no built-in prototype, so
    on strings, numbers, booleans and arrays they read as [undefined]. *)
Definition destructure (k : string) (v : value) : option value :=
  match v with
  | Undefined | Null => None
  | Obj fields => Some (assoc k fields)
  | _ => Some Undefined
  end.

(** The property names every plain object inherits from
    [Object.prototype]. *)
Definition object_prototype_keys : list string :=
  [ "constructor"; "__proto__"; "hasOwnProperty"; "isPrototypeOf";
    "propertyIsEnumerable"; "toLocaleString"; "toString"; "valueOf";
    "__defineGetter__"; "__defineSetter__"; "__lookupGetter__";
    "__lookupSetter__" ].

(** The result of [obj[k]] on a plain object literal used as a dictionary:
    an own entry, a member inherited from [Object.prototype] (a function, or
    the prototype itself for [__proto__]: truthy, and without any data
    field), or [undefined]. *)
Inductive property (A : Type) :=
| Own (a : A)
| Inherited
| Missing.
Arguments Own {A} a.
Arguments Inherited {A}.
Arguments Missing {A}.

Definition get {A} (obj : gmap string A) (k : string) : property A :=
  match obj !! k with
  | Some a => Own a
  | None => if bool_decide (k ∈ object_prototype_keys) then Inherited else Missing
  end.

(** [{text && <div>...</div>}]: a text is drawn when it is there and not
    empty. *)
Definition drawn (text : option string) : option string :=
  match text with
  | Some t => if String.eqb t "" then None else Some t
  | None => None
  end.

End Js.

(** ** The mock QPay endpoint, [pages/api/qpay.ts] *)

Module QPay.
Import Js.

(** [status: 'pending' | 'paid'] *)
Inductive invoice_status := pending | paid.

Definition status_text (s : invoice_status) : string :=
  match s with pending => "pending" | paid => "paid" end.

Record invoice := { status : invoice_status; createdAt : N }.

(** A callback registered with [setTimeout]: the closure keeps [invoiceId]. *)
Record timer := { due : N; target : string }.

(** The module-level [invoices] object, the clock read by [Date.now()] (in
    milliseconds) and the timers that have not run yet.  The handler has no
    [await]: it runs to its end at one reading of the clock. *)
Record world := {
  clock : N;
  invoices : gmap string invoice;
  timers : list timer
}.

Definition boot (t0 : N) : world :=
  {| clock := t0; invoices := ∅; timers := [] |}.

Inductive query_value :=
| QAbsent
| QOne (s : string)
| QMany (ss : list string).

Record request := {
  method : string;
  body : value;
  invoice_id : query_value   (* req.query.invoice_id *)
}.

(** What the framework sends back: [res.status(code).json(payload)], or the
    handler threw. *)
Inductive outcome :=
| Sent (code : N) (payload : value)
| Threw.

Definition error_payload (msg : string) : value := Obj [("error", Str msg)].

(** [`MOCK-${Date.now()}`] *)
Definition invoice_id_at (now : N) : string := "MOCK-" +:+ pretty now.

(** [encodeURIComponent] leaves letters, digits and [-] as they are, and an
    invoice identifier has no other character. *)
Definition qr_url_of (invoiceId : string) : string :=
  "https://api.qrserver.com/v1/create-qr-code/?size=200x200&data=" +:+ invoiceId.

Definition delay : N := 10000.

Definition mark_paid (r : invoice) : invoice :=
  {| status := paid; createdAt := createdAt r |}.

(** The [POST] branch. *)
Definition create_invoice (w : world) (b : value) : world * outcome :=
  match destructure "amount" b, destructure "contractId" b,
        destructure "milestoneId" b with
  | Some amount, Some contractId, Some milestoneId =>
      if negb (truthy amount) || negb (truthy contractId)
         || negb (truthy milestoneId)
      then (w, Sent 400 (error_payload "amount, contractId and milestoneId are required"))
      else
        let invoiceId := invoice_id_at (clock w) in
        ({| clock := clock w;
            invoices := <[invoiceId := {| status := pending; createdAt := clock w |}]> (invoices w);
            timers := timers w ++ [{| due := clock w + delay; target := invoiceId |}] |},
         Sent 200 (Obj [("invoice_id", Str invoiceId);
                        ("qr_url", Str (qr_url_of invoiceId))]))
  | _, _, _ => (w, Threw)
  end.

(** The [GET] branch. *)
Definition poll_invoice (w : world) (q : query_value) : outcome :=
  match q with
  | QAbsent | QMany _ => Sent 400 (error_payload "invoice_id query param is required")
  | QOne id =>
      if String.eqb id "" then
        Sent 400 (error_payload "invoice_id query param is required")
      else
        match get (invoices w) id with
        | Missing => Sent 404 (error_payload "invoice not found")
        | Own record => Sent 200 (Obj [("status", Str (status_text (status record)))])
        | Inherited => Sent 200 (Obj [("status", Undefined)])
        end
  end.

Definition handler (w : world) (req : request) : world * outcome :=
  if String.eqb (method req) "POST" then create_invoice w (body req)
  else if String.eqb (method req) "GET" then (w, poll_invoice w (invoice_id req))
  else (w, Sent 405 (error_payload "Method not allowed")).

(** *** The event loop

    A timer callback runs once the clock has reached its due time:
    [if (invoices[invoiceId]) invoices[invoiceId].status = 'paid'].  Every
    target is an identifier made by [invoice_id_at], which is never the name
    of an inherited member, so only own entries are touched. *)
Definition fire (t : timer) (inv : gmap string invoice) : gmap string invoice :=
  alter mark_paid (target t) inv.

Definition is_due (now : N) (t : timer) : Prop := (due t ≤ now)%N.

Global Instance is_due_dec now t : Decision (is_due now t).
Proof. unfold is_due. apply _. Defined.

Definition run_due (w : world) : world :=
  {| clock := clock w;
     invoices := foldr fire (invoices w) (filter (is_due (clock w)) (timers w));
     timers := filter (λ t, ¬ is_due (clock w) t) (timers w) |}.

(** [d] milliseconds pass and the callbacks that have become due run,
    before the next request is handled. *)
Definition elapse (d : N) (w : world) : world :=
  run_due {| clock := clock w + d; invoices := invoices w; timers := timers w |}.

Inductive event :=
| Elapse (d : N)
| Http (req : request).

Definition step (w : world) (e : event) : world :=
  match e with
  | Elapse d => elapse d w
  | Http req => fst (handler w req)
  end.

Definition run (w : world) (es : list event) : world := foldl step w es.

Fixpoint elapsed (es : list event) : N :=
  match es with
  | [] => 0
  | Elapse d :: rest => d + elapsed rest
  | Http _ :: rest => elapsed rest
  end.

Definition post (b : value) : request :=
  {| method := "POST"; body := b; invoice_id := QAbsent |}.

Definition get_status (id : string) : request :=
  {| method := "GET"; body := Undefined; invoice_id := QOne id |}.

(** [createInvoice(amount, contractId, milestoneId)] as the client sends it. *)
Definition invoice_body (amount contractId milestoneId : value) : value :=
  Obj [("amount", amount); ("contractId", contractId); ("milestoneId", milestoneId)].

(** The invoice made at clock reading [t], seen from a later state: its
    record is there, and it is paid unless its callback is still waiting. *)
Definition settling (t : N) (w : world) : Prop :=
  ∃ r, invoices w !! invoice_id_at t = Some r
       ∧ (status r = paid
          ∨ ((clock w < t + delay)%N
             ∧ {| due := t + delay; target := invoice_id_at t |} ∈ timers w)).

(** Every waiting callback was registered by the handler. *)
Definition well_timed (w : world) : Prop :=
  ∀ tm, tm ∈ timers w →
        ∃ t, target tm = invoice_id_at t ∧ due tm = (t + delay)%N.

(** The invoice made at clock reading [t] is recorded and not paid yet. *)
Definition waiting (t : N) (w : world) : Prop :=
  ∃ r, invoices w !! invoice_id_at t = Some r ∧ status r = pending.

End QPay.

(** ** The Supabase tables

    Only the columns the workflows read or write are kept; descriptions,
    cover letters and creation stamps play no part in them. *)

Module Store.

Record profile := { profile_id : string; profile_role : string }.

Record project := {
  project_id : string;
  project_title : string;
  project_status : string;
  project_client : string;
  project_budget : option Js.number
}.

Record proposal := {
  proposal_id : string;
  proposal_project : string;
  proposal_freelancer : string;
  proposed_budget : option Js.number;
  proposal_status : string
}.

Record contract := {
  contract_id : string;
  contract_project : string;
  contract_client : string;
  contract_freelancer : string;
  start_date : string;
  total_amount : option Js.number;
  contract_status : string
}.

Record milestone := {
  milestone_id : string;
  milestone_contract : string;
  milestone_title : string;
  milestone_amount : option Js.number;
  milestone_status : string;
  updated_at : string
}.

Record db := {
  profiles : list profile;
  projects : list project;
  proposals : list proposal;
  contracts : list contract;
  milestones : list milestone
}.

(** The answer of the store to one call: [None] when [error] is null,
    [Some msg] when the call failed with [error.message = msg].  A failed
    write changes nothing: each call is one statement. *)
Definition reply := option string.

(** [.update(f).eq(...)]: every row that passes the filter is rewritten. *)
Definition update_where {A} (keep : A → bool) (f : A → A) (rows : list A) : list A :=
  map (λ r, if keep r then f r else r) rows.

(** [.select(...).eq(...)] *)
Definition select_where {A} (keep : A → bool) (rows : list A) : list A :=
  List.filter keep rows.

(** [.single()]: exactly one row, otherwise an error. *)
Definition single {A} (rows : list A) : option A :=
  match rows with
  | [r] => Some r
  | _ => None
  end.

Definition with_project_status (s : string) (p : project) : project :=
  {| project_id := project_id p; project_title := project_title p;
     project_status := s; project_client := project_client p;
     project_budget := project_budget p |}.

Definition with_proposal_status (s : string) (p : proposal) : proposal :=
  {| proposal_id := proposal_id p; proposal_project := proposal_project p;
     proposal_freelancer := proposal_freelancer p;
     proposed_budget := proposed_budget p; proposal_status := s |}.

Definition with_milestone_status (s stamp : string) (m : milestone) : milestone :=
  {| milestone_id := milestone_id m; milestone_contract := milestone_contract m;
     milestone_title := milestone_title m; milestone_amount := milestone_amount m;
     milestone_status := s; updated_at := stamp |}.

Definition set_contracts (cs : list contract) (d : db) : db :=
  {| profiles := profiles d; projects := projects d; proposals := proposals d;
     contracts := cs; milestones := milestones d |}.

Definition set_projects (ps : list project) (d : db) : db :=
  {| profiles := profiles d; projects := ps; proposals := proposals d;
     contracts := contracts d; milestones := milestones d |}.

Definition set_proposals (ps : list proposal) (d : db) : db :=
  {| profiles := profiles d; projects := projects d; proposals := ps;
     contracts := contracts d; milestones := milestones d |}.

Definition set_milestones (ms : list milestone) (d : db) : db :=
  {| profiles := profiles d; projects := projects d; proposals := proposals d;
     contracts := contracts d; milestones := ms |}.

(** The contracts recorded for a project. *)
Definition contracts_of (pid : string) (d : db) : list contract :=
  select_where (λ c, String.eqb (contract_project c) pid) (contracts d).

End Store.

(** ** Proposal review and hiring, [pages/manage-jobs/[id].tsx] *)

Module Hire.
Import Store.

(** The page's [Proposal] and [Project] interfaces. *)
Record Proposal := {
  id : string;
  freelancer_id : string;
  proposed_budget : option Js.number;
  status : string
}.

Global Instance Proposal_eq_dec : EqDecision Proposal.
Proof. solve_decision. Defined.

Record Project := {
  pid : string;
  title : string;
  pstatus : string;
  client_id : string;
  budget : option Js.number
}.

(** The component state ([useState]). *)
Record page := {
  project : option Project;
  proposals : list Proposal;
  role : option string;
  loading : bool;
  message : option string;
  actionLoading : option string
}.

Definition initial : page :=
  {| project := None; proposals := []; role := None; loading := true;
     message := None; actionLoading := None |}.

Definition view_of_proposal (r : Store.proposal) : Proposal :=
  {| id := proposal_id r; freelancer_id := proposal_freelancer r;
     proposed_budget := Store.proposed_budget r; status := proposal_status r |}.

Definition view_of_project (r : Store.project) : Project :=
  {| pid := project_id r; title := project_title r; pstatus := project_status r;
     client_id := project_client r; budget := project_budget r |}.

(** The answers of the store to the three reads of [fetchData]. *)
Record read_replies := {
  on_profile : reply;
  on_project_read : reply;
  on_proposals : reply
}.

(** [fetchData], run when the page mounts with route parameter [route_id];
    [user] is the signed-in user, if any.  Without a user the page
    redirects to the sign-up page and its state stays as it is.  The
    effect runs it only once the route parameter is a non-empty string.  The
    proposals come newest first ([.order('created_at', { ascending: false
    })]); the table is in creation order. *)
Definition fetchData (r : read_replies) (user : option string) (route_id : string)
    (d : db) (pg : page) : page :=
  match user with
  | None => pg
  | Some uid =>
      match on_profile r,
            single (select_where (λ p, String.eqb (profile_id p) uid) (profiles d)) with
      | None, Some profile =>
          match on_project_read r,
                single (select_where (λ p, String.eqb (project_id p) route_id) (projects d)) with
          | None, Some proj =>
              let owner := String.eqb (profile_role profile) "client"
                           && String.eqb (project_client proj) uid in
              let listed :=
                match owner, on_proposals r with
                | true, None =>
                    map view_of_proposal
                      (rev (select_where (λ p, String.eqb (proposal_project p) route_id)
                                         (Store.proposals d)))
                | _, _ => proposals pg
                end in
              {| project := Some (view_of_project proj); proposals := listed;
                 role := Some (profile_role profile); loading := false;
                 message := message pg; actionLoading := actionLoading pg |}
          | _, _ =>
              {| project := None; proposals := proposals pg;
                 role := Some (profile_role profile); loading := false;
                 message := message pg; actionLoading := actionLoading pg |}
          end
      | _, _ =>
          {| project := project pg; proposals := proposals pg; role := None;
             loading := false; message := message pg;
             actionLoading := actionLoading pg |}
      end
  end.

(** What the store answers to the four writes of [handleHire], the
    identifier it gives the new contract row, and the date of the day
    ([new Date().toISOString().split('T')[0]]). *)
Record hire_env := {
  today : string;
  new_contract_id : string;
  on_insert : reply;
  on_project_update : reply;
  on_accept : reply;
  on_reject : reply
}.

Definition not_found_text : string := "Ажил олдсонгүй".
Definition created_text : string := "Гэрээ амжилттай үүсэв!".

(** [proposal.proposed_budget ?? project.budget] *)
Definition nullish {A} (a b : option A) : option A :=
  match a with
  | Some x => Some x
  | None => b
  end.

Definition new_contract (e : hire_env) (project : Project) (proposal : Proposal) : contract :=
  {| contract_id := new_contract_id e;
     contract_project := pid project;
     contract_client := client_id project;
     contract_freelancer := freelancer_id proposal;
     start_date := today e;
     total_amount := nullish (proposed_budget proposal) (budget project);
     contract_status := "active" |}.

(** The store side of a write: applied when the store reports no error. *)
Definition attempt (r : reply) (write : db → db) (d : db) : db :=
  match r with
  | None => write d
  | Some _ => d
  end.

Definition accept_chosen (proposal : Proposal) : db → db :=
  λ d, set_proposals
         (update_where (λ p, String.eqb (proposal_id p) (id proposal))
                       (with_proposal_status "accepted") (Store.proposals d)) d.

Definition reject_others (project : Project) (proposal : Proposal) : db → db :=
  λ d, set_proposals
         (update_where (λ p, negb (String.eqb (proposal_id p) (id proposal))
                             && String.eqb (proposal_project p) (pid project))
                       (with_proposal_status "rejected") (Store.proposals d)) d.

(** The state left by a run that stops with [setMessage(msg)]; the
    [finally] block has cleared [actionLoading]. *)
Definition stopped (msg : string) (pg : page) : page :=
  {| project := project pg; proposals := proposals pg; role := role pg;
     loading := loading pg; message := Some msg; actionLoading := None |}.

Definition relabel (proposal : Proposal) (p : Proposal) : Proposal :=
  {| id := id p; freelancer_id := freelancer_id p;
     proposed_budget := proposed_budget p;
     status := if String.eqb (id p) (id proposal) then "accepted" else "rejected" |}.

Definition handleHire (e : hire_env) (proposal : Proposal) (pg : page) (d : db)
    : page * db :=
  match project pg with
  | None => (stopped not_found_text pg, d)
  | Some project =>
      (* Create contract *)
      match on_insert e with
      | Some insertError => (stopped insertError pg, d)
      | None =>
          let d1 := set_contracts (contracts d ++ [new_contract e project proposal]) d in
          (* Update project status to in_progress *)
          match on_project_update e with
          | Some updateError => (stopped updateError pg, d1)
          | None =>
              let d2 := set_projects
                          (update_where (λ p, String.eqb (project_id p) (pid project))
                                        (with_project_status "in_progress") (projects d1)) d1 in
              (* Optionally update proposal statuses *)
              let d3 := attempt (on_accept e) (accept_chosen proposal) d2 in
              let d4 := attempt (on_reject e) (reject_others project proposal) d3 in
              ({| project := Some {| pid := pid project; title := title project;
                                     pstatus := "in_progress";
                                     client_id := client_id project;
                                     budget := budget project |};
                  proposals := map (relabel proposal) (proposals pg);
                  role := role pg; loading := loading pg;
                  message := Some created_text; actionLoading := None |},
               d4)
          end
      end
  end.

(** What the page shows. *)
Record card := {
  shown : Proposal;
  hire_button : bool;      (* [proposal.status === 'pending'] *)
  button_disabled : bool   (* [!!actionLoading] *)
}.

Inductive screen :=
| Spinner
| ClientsOnly
| Review (heading : string) (notice : option string) (cards : list card).

Definition render (pg : page) : screen :=
  if loading pg then Spinner
  else
    match project pg with
    | None => ClientsOnly
    | Some project =>
        if negb (bool_decide (role pg = Some "client")) then ClientsOnly
        else Review (title project) (Js.drawn (message pg))
               (map (λ p, {| shown := p;
                             hire_button := String.eqb (status p) "pending";
                             button_disabled := bool_decide (actionLoading pg ≠ None) |})
                    (proposals pg))
    end.

(** A [Hire] button the client can press for [proposal]. *)
Definition hire_offered (pg : page) (proposal : Proposal) : bool :=
  match render pg with
  | Review _ _ cards =>
      existsb (λ c, bool_decide (shown c = proposal) && hire_button c
                    && negb (button_disabled c)) cards
  | _ => false
  end.

End Hire.

(** ** The contract dashboard, [pages/contracts/[id].tsx] *)

Module Dashboard.
Import Store.

(** The component state.  [contract], [milestones] and [profile] hold rows
    as the store returned them. *)
Record page := {
  contract : option contract;
  milestones : list milestone;
  profile : option profile;
  loading : bool;
  error : option string;
  actionLoading : bool
}.

Definition initial : page :=
  {| contract := None; milestones := []; profile := None; loading := true;
     error := None; actionLoading := false |}.

(** [err.message || fallback] *)
Definition or_default (msg fallback : string) : string :=
  if String.eqb msg "" then fallback else msg.

Definition load_failed_text : string := "Алдаа гарлаа.".
Definition update_failed_text : string := "Milestone шинэчлэхэд алдаа гарлаа.".

(** The error PostgREST answers when [.single()] does not find exactly one
    row. *)
Definition no_single_row_text : string :=
  "JSON object requested, multiple (or no) rows returned".

(** A read ending in [.single()]: the row, or the error message. *)
Definition read_single {A} (r : reply) (rows : list A) : string + A :=
  match r with
  | Some e => inl e
  | None =>
      match single rows with
      | Some row => inr row
      | None => inl no_single_row_text
      end
  end.

(** [fetchProfile]; [user] is [session?.user]. *)
Definition fetchProfile (r : reply) (user : option string) (d : db) (pg : page) : page :=
  match user with
  | None => pg
  | Some uid =>
      {| contract := contract pg; milestones := milestones pg;
         profile :=
           match read_single r (select_where (λ p, String.eqb (profile_id p) uid) (profiles d)) with
           | inr row => Some row
           | inl _ => None
           end;
         loading := loading pg; error := error pg;
         actionLoading := actionLoading pg |}
  end.

Record read_replies := {
  on_contract : reply;
  on_milestones : reply
}.

(** [fetchContractAndMilestones] for the contract [route_id].  The
    milestones table is kept in creation order, which is the order asked
    for. *)
Definition fetchContractAndMilestones (r : read_replies) (route_id : string)
    (d : db) (pg : page) : page :=
  match read_single (on_contract r)
          (select_where (λ c, String.eqb (contract_id c) route_id) (contracts d)) with
  | inl e =>
      {| contract := contract pg; milestones := milestones pg;
         profile := profile pg; loading := false;
         error := Some (or_default e load_failed_text);
         actionLoading := actionLoading pg |}
  | inr contractData =>
      match on_milestones r with
      | Some e =>
          {| contract := Some contractData; milestones := milestones pg;
             profile := profile pg; loading := false;
             error := Some (or_default e load_failed_text);
             actionLoading := actionLoading pg |}
      | None =>
          {| contract := Some contractData;
             milestones :=
               select_where (λ m, String.eqb (milestone_contract m) route_id)
                            (Store.milestones d);
             profile := profile pg; loading := false; error := None;
             actionLoading := actionLoading pg |}
      end
  end.

(** The answers of the store during [updateMilestoneStatus], and the time
    stamp [new Date().toISOString()]. *)
Record update_env := {
  stamp : string;
  on_update : reply;
  on_reload : read_replies
}.

Definition finished (pg : page) : page :=
  {| contract := contract pg; milestones := milestones pg; profile := profile pg;
     loading := loading pg; error := error pg; actionLoading := false |}.

Definition updateMilestoneStatus (e : update_env) (route_id : string)
    (milestoneId newStatus : string) (pg : page) (d : db) : page * db :=
  match on_update e with
  | Some updateError =>
      ({| contract := contract pg; milestones := milestones pg;
          profile := profile pg; loading := loading pg;
          error := Some (or_default updateError update_failed_text);
          actionLoading := false |},
       d)
  | None =>
      let d' := set_milestones
                  (update_where (λ m, String.eqb (milestone_id m) milestoneId)
                                (with_milestone_status newStatus (stamp e))
                                (Store.milestones d)) d in
      (* Reload milestones to reflect changes *)
      (finished (fetchContractAndMilestones (on_reload e) route_id d' pg), d')
  end.

(** Handler wrappers. *)
Definition handleFund (e : update_env) (route_id mid : string) :=
  updateMilestoneStatus e route_id mid "funded".
Definition handleRelease (e : update_env) (route_id mid : string) :=
  updateMilestoneStatus e route_id mid "released".
Definition handleSubmit (e : update_env) (route_id mid : string) :=
  updateMilestoneStatus e route_id mid "in_review".

(** The three buttons, their [onClick] and the status each one asks for. *)
Inductive action := Fund | Release | Submit.

Global Instance action_eq_dec : EqDecision action.
Proof. solve_decision. Defined.

Definition onClick (a : action) (e : update_env) (route_id mid : string)
    : page → db → page * db :=
  match a with
  | Fund => handleFund e route_id mid
  | Release => handleRelease e route_id mid
  | Submit => handleSubmit e route_id mid
  end.

Definition requested_status (a : action) : string :=
  match a with
  | Fund => "funded"
  | Release => "released"
  | Submit => "in_review"
  end.

(** [profile?.role === 'client' && contract?.client_id === profile?.id]; a
    loaded profile always has an [id]. *)
Definition isClient (pg : page) : bool :=
  match profile pg with
  | Some p =>
      String.eqb (profile_role p) "client"
      && match contract pg with
         | Some c => String.eqb (contract_client c) (profile_id p)
         | None => false
         end
  | None => false
  end.

Definition isFreelancer (pg : page) : bool :=
  match profile pg with
  | Some p =>
      String.eqb (profile_role p) "freelancer"
      && match contract pg with
         | Some c => String.eqb (contract_freelancer c) (profile_id p)
         | None => false
         end
  | None => false
  end.

(** The buttons drawn next to a milestone whose loaded status is [st]. *)
Definition buttons (client freelancer : bool) (st : string) : list action :=
  (if client && String.eqb st "pending" then [Fund] else [])
  ++ (if client && (String.eqb st "funded" || String.eqb st "in_review")
      then [Release] else [])
  ++ (if freelancer && String.eqb st "funded" then [Submit] else []).

Record line := {
  shown : milestone;
  offered : list action;
  disabled : bool
}.

Inductive screen :=
| Spinner
| NoAccess
| Board (summary : Store.contract) (notice : option string) (lines : list line).

Definition render (pg : page) : screen :=
  if loading pg then Spinner
  else
    match contract pg with
    | None => NoAccess
    | Some c =>
        if negb (isClient pg) && negb (isFreelancer pg) then NoAccess
        else Board c (Js.drawn (error pg))
               (map (λ m, {| shown := m;
                             offered := buttons (isClient pg) (isFreelancer pg)
                                                (milestone_status m);
                             disabled := actionLoading pg |})
                    (milestones pg))
    end.

(** Button [a] of milestone [mid] is on the screen and can be pressed. *)
Definition can_press (pg : page) (mid : string) (a : action) : bool :=
  match render pg with
  | Board _ _ lines =>
      existsb (λ l, String.eqb (milestone_id (shown l)) mid
                    && bool_decide (a ∈ offered l) && negb (disabled l)) lines
  | _ => false
  end.

(** A press on button [a] of milestone [mid]: the handler runs when the
    button is there, and nothing happens otherwise. *)
Definition press (e : update_env) (route_id : string) (mid : string) (a : action)
    (pg : page) (d : db) : page * db :=
  if can_press pg mid a then onClick a e route_id mid pg d else (pg, d).

(** The forward moves of a milestone. *)
Definition forward (from to : string) : bool :=
  (String.eqb from "pending" && String.eqb to "funded")
  || (String.eqb from "funded" && String.eqb to "in_review")
  || (String.eqb from "funded" && String.eqb to "released")
  || (String.eqb from "in_review" && String.eqb to "released").

(** The status the store holds for milestone [mid]. *)
Definition stored_status (d : db) (mid : string) : option string :=
  milestone_status <$>
    head (select_where (λ m, String.eqb (milestone_id m) mid) (Store.milestones d)).

(** The caller is the client (the freelancer) of the loaded contract. *)
Definition client_of_contract (pg : page) : Prop :=
  ∃ p c, profile pg = Some p ∧ contract pg = Some c
         ∧ profile_role p = "client" ∧ contract_client c = profile_id p.

Definition freelancer_of_contract (pg : page) : Prop :=
  ∃ p c, profile pg = Some p ∧ contract pg = Some c
         ∧ profile_role p = "freelancer" ∧ contract_freelancer c = profile_id p.

End Dashboard.

(** ** Sample data

    One client, two freelancers, one project with two proposals; later one
    contract with one milestone. *)

Module Sample.
Import Store.

Definition alice : string := "u-client".
Definition bob : string := "u-free-1".
Definition carol : string := "u-free-2".

Definition people : list profile :=
  [ {| profile_id := alice; profile_role := "client" |};
    {| profile_id := bob; profile_role := "freelancer" |};
    {| profile_id := carol; profile_role := "freelancer" |} ].

Definition job : project :=
  {| project_id := "P1"; project_title := "Logo"; project_status := "open";
     project_client := alice; project_budget := Some (Js.Finite 500000) |}.

Definition bid_bob : proposal :=
  {| proposal_id := "pr1"; proposal_project := "P1"; proposal_freelancer := bob;
     proposed_budget := Some (Js.Finite 450000); proposal_status := "pending" |}.

Definition bid_carol : proposal :=
  {| proposal_id := "pr2"; proposal_project := "P1"; proposal_freelancer := carol;
     proposed_budget := None; proposal_status := "pending" |}.

Definition market : db :=
  {| profiles := people; projects := [job]; proposals := [bid_bob; bid_carol];
     contracts := []; milestones := [] |}.

Definition reads_ok : Hire.read_replies :=
  {| Hire.on_profile := None; Hire.on_project_read := None; Hire.on_proposals := None |}.

(** Alice opens the review page of her project. *)
Definition review : Hire.page :=
  Hire.fetchData reads_ok (Some alice) "P1" market Hire.initial.

Definition writes_ok (cid : string) : Hire.hire_env :=
  {| Hire.today := "2025-01-15"; Hire.new_contract_id := cid;
     Hire.on_insert := None; Hire.on_project_update := None;
     Hire.on_accept := None; Hire.on_reject := None |}.

(** The store times out on the last write. *)
Definition reject_fails : Hire.hire_env :=
  {| Hire.today := "2025-01-15"; Hire.new_contract_id := "c1";
     Hire.on_insert := None; Hire.on_project_update := None;
     Hire.on_accept := None;
     Hire.on_reject := Some "canceling statement due to statement timeout" |}.

(** The store refuses the third write. *)
Definition accept_fails : Hire.hire_env :=
  {| Hire.today := "2025-01-15"; Hire.new_contract_id := "c1";
     Hire.on_insert := None; Hire.on_project_update := None;
     Hire.on_accept := Some "permission denied for table proposals";
     Hire.on_reject := None |}.

Definition insert_fails : Hire.hire_env :=
  {| Hire.today := "2025-01-15"; Hire.new_contract_id := "c1";
     Hire.on_insert := Some "Failed to fetch"; Hire.on_project_update := None;
     Hire.on_accept := None; Hire.on_reject := None |}.

Definition project_update_fails : Hire.hire_env :=
  {| Hire.today := "2025-01-15"; Hire.new_contract_id := "c1";
     Hire.on_insert := None; Hire.on_project_update := Some "Failed to fetch";
     Hire.on_accept := None; Hire.on_reject := None |}.

(** Alice hires Bob, the project update fails, and she presses Hire
    again. *)
Definition first_try : Hire.page * db :=
  Hire.handleHire project_update_fails (Hire.view_of_proposal bid_bob) review market.

Definition second_try : Hire.page * db :=
  Hire.handleHire (writes_ok "c2") (Hire.view_of_proposal bid_bob)
    first_try.1 first_try.2.

(** The store after Alice hired Bob while the last write timed out, and the
    review page as she opens it again. *)
Definition market_after_hire : db :=
  (Hire.handleHire reject_fails (Hire.view_of_proposal bid_bob) review market).2.

Definition review_again : Hire.page :=
  Hire.fetchData reads_ok (Some alice) "P1" market_after_hire Hire.initial.

Definition deal : contract :=
  {| contract_id := "c1"; contract_project := "P1"; contract_client := alice;
     contract_freelancer := bob; start_date := "2025-01-15";
     total_amount := Some (Js.Finite 450000); contract_status := "active" |}.

Definition draft (st : string) : milestone :=
  {| milestone_id := "m1"; milestone_contract := "c1"; milestone_title := "Draft";
     milestone_amount := Some (Js.Finite 200000); milestone_status := st;
     updated_at := "2025-01-15T08:00:00.000Z" |}.

Definition escrow (st : string) : db :=
  {| profiles := people; projects := []; proposals := []; contracts := [deal];
     milestones := [draft st] |}.

Definition loads_ok : Dashboard.read_replies :=
  {| Dashboard.on_contract := None; Dashboard.on_milestones := None |}.

(** The dashboard of contract [c1] as [user] opens it on store [d]. *)
Definition board (user : string) (d : db) : Dashboard.page :=
  Dashboard.fetchContractAndMilestones loads_ok "c1" d
    (Dashboard.fetchProfile None (Some user) d Dashboard.initial).

Definition update_ok : Dashboard.update_env :=
  {| Dashboard.stamp := "2025-01-16T09:30:00.000Z"; Dashboard.on_update := None;
     Dashboard.on_reload := loads_ok |}.

(** Alice has the dashboard open in two tabs.  In the first she funds the
    milestone and then releases it; the second still shows what it loaded. *)
Definition tab : Dashboard.page := board alice (escrow "pending").

Definition funded_run : Dashboard.page * db :=
  Dashboard.press update_ok "c1" "m1" Dashboard.Fund tab (escrow "pending").

Definition released_run : Dashboard.page * db :=
  Dashboard.press update_ok "c1" "m1" Dashboard.Release funded_run.1 funded_run.2.

Definition stale_run : Dashboard.page * db :=
  Dashboard.press update_ok "c1" "m1" Dashboard.Fund tab released_run.2.







End Sample.

(** ** Numbers in forms and in rows *)

Module JsNum.
Import Js.

(** [isNaN(n)] *)
Definition isNaN (n : number) : bool :=
  match n with
  | NaN => true
  | _ => false
  end.

(** [n <= 0]; a comparison with [NaN] is false. *)
Definition le_zero (n : number) : bool :=
  match n with
  | Finite q => Qle_bool q 0
  | Infinity negative => negative
  | NaN => false
  end.

(** A number as it reaches a column: the client sends the row through
    [JSON.stringify], which writes [NaN] and the infinities as [null]. *)
Definition to_json (n : number) : option number :=
  match n with
  | Finite q => Some (Finite q)
  | _ => None
  end.

End JsNum.

(** ** Registration, [pages/signup.tsx] *)

Module Signup.
Import Store.

(** [useState<'client' | 'freelancer'>] *)
Inductive role_choice := client | freelancer.

Definition role_text (r : role_choice) : string :=
  match r with
  | client => "client"
  | freelancer => "freelancer"
  end.

(** The component state, and where [router.push] sent the browser. *)
Record page := {
  email : string;
  password : string;
  confirmPassword : string;
  role : role_choice;
  loading : bool;
  error : option string;
  pushed : option string
}.

(** The accounts of the authentication service, next to the tables. *)
Record account := {
  account_id : string;
  account_email : string;
  account_role : string   (* options.data.role *)
}.

Record backend := {
  accounts : list account;
  data : db
}.

(** The answer of [supabase.auth.signUp]: an error, no error but no user,
    or the new user. *)
Inductive sign_up_reply :=
| SignUpFailed (msg : string)
| SignUpNoUser
| SignUpUser (uid : string).

Record signup_env := {
  on_sign_up : sign_up_reply;
  on_profile_insert : reply
}.

Definition mismatch_text : string := "Нууц үг таарахгүй байна".
Definition failed_text : string := "Алдаа гарлаа".

(** The state after the [catch] and [finally] blocks for an error whose
    message is [msg]: [setError(err?.message || 'Алдаа гарлаа')]. *)
Definition failed (msg : string) (pg : page) : page :=
  {| email := email pg; password := password pg;
     confirmPassword := confirmPassword pg; role := role pg; loading := false;
     error := Some (if String.eqb msg "" then failed_text else msg);
     pushed := pushed pg |}.

Definition handleSignup (e : signup_env) (pg : page) (b : backend) : page * backend :=
  if negb (String.eqb (password pg) (confirmPassword pg)) then
    ({| email := email pg; password := password pg;
        confirmPassword := confirmPassword pg; role := role pg;
        loading := loading pg; error := Some mismatch_text;
        pushed := pushed pg |}, b)
  else
    (* 1. Create the auth user and attach the selected role as metadata *)
    match on_sign_up e with
    | SignUpFailed msg => (failed msg pg, b)
    | SignUpNoUser => (failed "Sign up failed" pg, b)
    | SignUpUser uid =>
        let b1 := {| accounts := accounts b
                       ++ [{| account_id := uid; account_email := email pg;
                              account_role := role_text (role pg) |}];
                     data := data b |} in
        (* 2. Insert a row into the profiles table *)
        match on_profile_insert e with
        | Some profileError => (failed profileError pg, b1)
        | None =>
            (* 3. Redirect to dashboard *)
            ({| email := email pg; password := password pg;
                confirmPassword := confirmPassword pg; role := role pg;
                loading := false; error := None; pushed := Some "/dashboard" |},
             {| accounts := accounts b1;
                data := {| profiles := profiles (data b)
                             ++ [{| profile_id := uid;
                                    profile_role := role_text (role pg) |}];
                           projects := projects (data b);
                           proposals := proposals (data b);
                           contracts := contracts (data b);
                           milestones := milestones (data b) |} |})
        end
    end.

End Signup.

(** ** Posting a job, [pages/post-job.tsx] *)

Module PostJob.
Import Store.

Record page := {
  role : option string;
  loadingUser : bool;
  title : string;
  description : string;
  budget : string;
  categoryId : option string;
  error : option string;
  submitting : bool;
  pushed : option string
}.

(** The signed-in user, the identifier the store gives the new row and the
    answer of the store to the insert. *)
Record post_env := {
  user : option string;
  new_project_id : string;
  on_insert : reply
}.

Definition required_text : string := "Гарчиг болон төлөвлөсөн үнийг заавал бөглөнө үү.".
Definition budget_text : string := "Төлөвлөсөн үнэ зөв тоон утга байх ёстой.".
Definition no_user_text : string := "Хэрэглэгч олдсонгүй".

(** A form refused before [setSubmitting(true)], and a run stopped after
    it. *)
Definition refused (msg : string) (pg : page) : page :=
  {| role := role pg; loadingUser := loadingUser pg; title := title pg;
     description := description pg; budget := budget pg;
     categoryId := categoryId pg; error := Some msg; submitting := submitting pg;
     pushed := pushed pg |}.

Definition stopped (msg : string) (pg : page) : page :=
  {| role := role pg; loadingUser := loadingUser pg; title := title pg;
     description := description pg; budget := budget pg;
     categoryId := categoryId pg; error := Some msg; submitting := false;
     pushed := pushed pg |}.

Section WithParseFloat.

(** The built-in [parseFloat]; nothing is assumed about it. *)
Variable parseFloat : string → Js.number.

(** The row sent to [projects]; the table model keeps neither the
    description nor the category. *)
Definition new_project (e : post_env) (uid : string) (pg : page) : project :=
  {| project_id := new_project_id e;
     project_title := title pg;
     project_status := "open";
     project_client := uid;
     project_budget := JsNum.to_json (parseFloat (budget pg)) |}.

Definition handleSubmit (e : post_env) (pg : page) (d : db) : page * db :=
  if String.eqb (title pg) "" || String.eqb (budget pg) "" then
    (refused required_text pg, d)
  else
    let numericBudget := parseFloat (budget pg) in
    if JsNum.isNaN numericBudget || JsNum.le_zero numericBudget then
      (refused budget_text pg, d)
    else
      (* Retrieve user again to get client id *)
      match user e with
      | None => (stopped no_user_text pg, d)
      | Some uid =>
          (* Insert the project *)
          match on_insert e with
          | Some insertError => (stopped insertError pg, d)
          | None =>
              ({| role := role pg; loadingUser := loadingUser pg;
                  title := title pg; description := description pg;
                  budget := budget pg; categoryId := categoryId pg;
                  error := None; submitting := false;
                  pushed := Some "/dashboard" |},
               set_projects (projects d ++ [new_project e uid pg]) d)
          end
      end.

End WithParseFloat.

End PostJob.

(** ** Job details and the proposal form, [pages/jobs/[id].tsx] *)

Module JobDetails.
Import Store.

(** The page's [JobDetail], without the columns the table model leaves
    out.  The status of the project is not among the selected columns. *)
Record JobDetail := {
  id : string;
  title : string;
  budget : option Js.number;
  client_id : string
}.

Record page := {
  job : option JobDetail;
  loadingJob : bool;
  role : option string;
  bidAmount : string;
  coverLetter : string;
  submitting : bool;
  message : option string
}.

Definition initial : page :=
  {| job := None; loadingJob := true; role := None; bidAmount := "";
     coverLetter := ""; submitting := false; message := None |}.

Definition view_of_job (r : project) : JobDetail :=
  {| id := project_id r; title := project_title r; budget := project_budget r;
     client_id := project_client r |}.

Record read_replies := {
  on_job : reply;
  on_profile : reply
}.

(** [fetchJob], run when the page mounts on route [route_id]. *)
Definition fetchJob (r : read_replies) (user : option string) (route_id : string)
    (d : db) (pg : page) : page :=
  let loaded :=
    match on_job r,
          single (select_where (λ p, String.eqb (project_id p) route_id) (projects d)) with
    | None, Some row => Some (view_of_job row)
    | _, _ => None
    end in
  let found :=
    match user with
    | None => role pg
    | Some uid =>
        match on_profile r,
              single (select_where (λ p, String.eqb (profile_id p) uid) (profiles d)) with
        | None, Some profile => Some (profile_role profile)
        | _, _ => role pg
        end
    end in
  {| job := loaded; loadingJob := false; role := found; bidAmount := bidAmount pg;
     coverLetter := coverLetter pg; submitting := submitting pg;
     message := message pg |}.

(** The signed-in user as [supabase.auth.getUser()] answers ([None] for an
    error or no user), the identifier the store gives the new row and the
    answer of the store to the insert. *)
Record submit_env := {
  user : option string;
  new_proposal_id : string;
  on_insert : reply
}.

Definition bad_bid_text : string := "Үнийн санал буруу байна.".
Definition no_job_text : string := "Ажил олдсонгүй".
Definition no_session_text : string := "Нэвтрэх мэдээлэл алга байна.".
Definition sent_text : string := "Санал амжилттай илгээгдлээ!".

(** A form refused before [setSubmitting(true)], and a run stopped after
    it. *)
Definition refused (msg : string) (pg : page) : page :=
  {| job := job pg; loadingJob := loadingJob pg; role := role pg;
     bidAmount := bidAmount pg; coverLetter := coverLetter pg;
     submitting := submitting pg; message := Some msg |}.

Definition stopped (msg : string) (pg : page) : page :=
  {| job := job pg; loadingJob := loadingJob pg; role := role pg;
     bidAmount := bidAmount pg; coverLetter := coverLetter pg;
     submitting := false; message := Some msg |}.

Section WithParseFloat.

(** The built-in [parseFloat]; nothing is assumed about it. *)
Variable parseFloat : string → Js.number.

(** The row sent to [proposals]; the cover letter is not kept by the table
    model. *)
Definition new_proposal (e : submit_env) (j : JobDetail) (uid : string) (pg : page)
    : proposal :=
  {| proposal_id := new_proposal_id e;
     proposal_project := id j;
     proposal_freelancer := uid;
     proposed_budget := JsNum.to_json (parseFloat (bidAmount pg));
     proposal_status := "pending" |}.

Definition handleSubmitProposal (e : submit_env) (pg : page) (d : db) : page * db :=
  if String.eqb (bidAmount pg) "" || JsNum.le_zero (parseFloat (bidAmount pg)) then
    (refused bad_bid_text pg, d)
  else
    match job pg with
    | None => (refused no_job_text pg, d)
    | Some j =>
        match user e with
        | None => (stopped no_session_text pg, d)
        | Some uid =>
            (* Insert proposal *)
            match on_insert e with
            | Some proposalError => (stopped proposalError pg, d)
            | None =>
                ({| job := job pg; loadingJob := loadingJob pg; role := role pg;
                    bidAmount := ""; coverLetter := ""; submitting := false;
                    message := Some sent_text |},
                 set_proposals (proposals d ++ [new_proposal e j uid pg]) d)
            end
        end
    end.

End WithParseFloat.

(** The form is drawn for freelancers on a loaded job. *)
Definition form_shown (pg : page) : bool :=
  negb (loadingJob pg)
  && match job pg with Some _ => true | None => false end
  && bool_decide (role pg = Some "freelancer").

End JobDetails.

(** ** Browsing open jobs, [pages/browse-jobs.tsx] *)

Module BrowseJobs.
Import Store.

Section WithCategory.

(** The [category_id] column of [projects], which the table model does not
    keep: it is read through this function, about which nothing is
    assumed. *)
Variable category_id : project → option string.

(** The query of [fetchProjects]: open projects, newest first (the table is
    in creation order), of the selected category when one is selected. *)
Definition open_projects (selectedCategory : string) (d : db) : list project :=
  rev (select_where
         (λ p, String.eqb (project_status p) "open"
               && (String.eqb selectedCategory ""
                   || bool_decide (category_id p = Some selectedCategory)))
         (projects d)).

(** The effect of the second [useEffect]: the list is fetched for a
    freelancer once the user is loaded, and a failed read leaves the list
    as it is. *)
Definition fetchProjects (r : reply) (loadingUser : bool) (role : option string)
    (selectedCategory : string) (d : db) (listed : list project) : list project :=
  if negb loadingUser && bool_decide (role = Some "freelancer") then
    match r with
    | Some _ => listed
    | None => open_projects selectedCategory d
    end
  else listed.

End WithCategory.

(** The jobs on the screen: none while the user loads, none for another
    role. *)
Definition shown (loadingUser : bool) (role : option string) (listed : list project)
    : list project :=
  if loadingUser then []
  else if bool_decide (role = Some "freelancer") then listed else [].

End BrowseJobs.

(** ** The client's own jobs, [pages/manage-jobs.tsx] *)

Module ManageJobs.
Import Store.

Record page := {
  role : option string;
  projects : list project;
  loading : bool
}.

Definition initial : page := {| role := None; projects := []; loading := true |}.

Record read_replies := {
  on_profile : reply;
  on_projects : reply
}.

(** [fetchData]; without a user the page redirects to the sign-up page and
    its state stays as it is.  [.single()] with no error gives a row, whose
    role is kept. *)
Definition fetchData (r : read_replies) (user : option string) (d : db) (pg : page)
    : page :=
  match user with
  | None => pg
  | Some uid =>
      match on_profile r,
            single (select_where (λ p, String.eqb (profile_id p) uid) (profiles d)) with
      | None, Some profile =>
          {| role := Some (profile_role profile);
             projects :=
               if String.eqb (profile_role profile) "client" then
                 match on_projects r with
                 | None =>
                     rev (select_where (λ p, String.eqb (project_client p) uid)
                                       (Store.projects d))
                 | Some _ => projects pg
                 end
               else projects pg;
             loading := false |}
      | _, _ => {| role := None; projects := projects pg; loading := false |}
      end
  end.

(** The jobs on the screen: none while loading or for another role. *)
Definition shown (pg : page) : list project :=
  if loading pg then []
  else if bool_decide (role pg = Some "client") then projects pg else [].

End ManageJobs.

(** ** Invariants of the running endpoint *)

Module QPayInv.
Import QPay.

(** What holds of the invoice store of a server that started empty: every
    key is an identifier made by the handler at a past clock reading, every
    paid record is older than the delay, and every waiting callback was
    registered by the handler. *)
Definition sound (w : world) : Prop :=
  well_timed w
  ∧ ∀ k r, invoices w !! k = Some r →
           ∃ t, k = invoice_id_at t ∧ (t ≤ clock w)%N
                ∧ (status r = paid → (t + delay ≤ clock w)%N).

Definition paid_payload : Js.value := Js.Obj [("status", Js.Str "paid")].

End QPayInv.

(** * Properties of the mock QPay endpoint *)

Module QPayFacts.
Import Js QPay.

Lemma invoice_id_at_inj (a b : N) : invoice_id_at a = invoice_id_at b → a = b.
Proof.
  unfold invoice_id_at. intros H. simpl in H.
  injection H as H. by apply (inj pretty).
Qed.

Lemma invoice_id_not_empty (t : N) : String.eqb (invoice_id_at t) "" = false.
Proof. reflexivity. Qed.

Lemma get_own {A} (obj : gmap string A) k a : obj !! k = Some a → get obj k = Own a.
Proof. unfold get. by intros ->. Qed.

(** What a request with all three fields truthy does. *)
Lemma create_invoice_accepts (w : world) (amount contractId milestoneId : value) :
  truthy amount = true → truthy contractId = true → truthy milestoneId = true →
  create_invoice w (invoice_body amount contractId milestoneId)
  = ({| clock := clock w;
        invoices := <[invoice_id_at (clock w) :=
                       {| status := pending; createdAt := clock w |}]> (invoices w);
        timers := timers w ++ [{| due := clock w + delay;
                                  target := invoice_id_at (clock w) |}] |},
     Sent 200 (Obj [("invoice_id", Str (invoice_id_at (clock w)));
                    ("qr_url", Str (qr_url_of (invoice_id_at (clock w))))])).
Proof.
  intros Ha Hc Hm. unfold create_invoice, invoice_body, destructure. simpl.
  by rewrite Ha, Hc, Hm.
Qed.

(** Polling an identifier that has an own entry. *)
Lemma poll_own (w : world) (t : N) (r : invoice) :
  invoices w !! invoice_id_at t = Some r →
  handler w (get_status (invoice_id_at t))
  = (w, Sent 200 (Obj [("status", Str (status_text (status r)))])).
Proof.
  intros Hr. unfold handler, get_status, poll_invoice. cbn.
  by rewrite (get_own _ _ _ Hr).
Qed.

(** *** Timers *)

Lemma fire_lookup_ne (t : timer) inv k :
  target t ≠ k → fire t inv !! k = inv !! k.
Proof. intros. unfold fire. by rewrite lookup_alter_ne. Qed.

Lemma fire_lookup_eq (t : timer) inv r :
  inv !! target t = Some r → fire t inv !! target t = Some (mark_paid r).
Proof. intros H. unfold fire. by rewrite lookup_alter_eq, H. Qed.

(** Running callbacks never removes a record and never takes back [paid]. *)
Lemma fire_all_keeps (ts : list timer) inv k r :
  inv !! k = Some r →
  ∃ r', foldr fire inv ts !! k = Some r' ∧ (status r = paid → status r' = paid).
Proof.
  intros Hr. induction ts as [|t ts IH]; simpl.
  - eauto.
  - destruct IH as (r' & Hr' & Hpaid).
    destruct (decide (target t = k)) as [<-|Hne].
    + exists (mark_paid r'). split; [by apply fire_lookup_eq | done].
    + exists r'. by rewrite fire_lookup_ne.
Qed.

(** A callback for [k] among those that run leaves [k] paid. *)
Lemma fire_all_pays (ts : list timer) inv (t : timer) r :
  t ∈ ts → inv !! target t = Some r →
  ∃ r', foldr fire inv ts !! target t = Some r' ∧ status r' = paid.
Proof.
  intros Hin Hr. induction ts as [|t' ts IH]; [by apply elem_of_nil in Hin|].
  simpl. apply elem_of_cons in Hin as [<-|Hin].
  - destruct (fire_all_keeps ts inv (target t) r Hr) as (r' & Hr' & _).
    exists (mark_paid r'). split; [by apply fire_lookup_eq | done].
  - destruct (IH Hin) as (r' & Hr' & Hp).
    destruct (decide (target t' = target t)) as [Heq|Hne].
    + exists (mark_paid r'). split; [|done].
      rewrite <- Heq. apply fire_lookup_eq. by rewrite Heq.
    + exists r'. by rewrite fire_lookup_ne.
Qed.

Lemma settling_created (w : world) (amount contractId milestoneId : value) :
  truthy amount = true → truthy contractId = true → truthy milestoneId = true →
  settling (clock w) (fst (create_invoice w (invoice_body amount contractId milestoneId))).
Proof.
  intros Ha Hc Hm. rewrite create_invoice_accepts by done. simpl.
  eexists. split; [apply lookup_insert_eq|]. right. simpl. split.
  - unfold delay. lia.
  - apply elem_of_app. right. apply list_elem_of_singleton. done.
Qed.

Lemma settling_create_invoice (t : N) (w : world) (b : value) :
  settling t w → settling t (fst (create_invoice w b)).
Proof.
  intros (r & Hr & Hst). unfold create_invoice.
  destruct (destructure "amount" b), (destructure "contractId" b),
    (destructure "milestoneId" b); cbn [fst]; try by (exists r).
  destruct (negb _ || negb _ || negb _); cbn [fst]; [by exists r|].
  unfold settling. cbn [invoices clock timers].
  destruct (decide (invoice_id_at (clock w) = invoice_id_at t)) as [Heq|Hne].
  - pose proof (invoice_id_at_inj _ _ Heq) as Hclock.
    eexists. split; [rewrite Heq; apply lookup_insert_eq|].
    right. cbn [status]. split; [unfold delay; lia|].
    apply elem_of_app. right. apply list_elem_of_singleton. by rewrite Hclock.
  - exists r. split; [by rewrite lookup_insert_ne|].
    destruct Hst as [Hp|[Hlt Hin]]; [by left|right].
    split; [done|]. apply elem_of_app. by left.
Qed.

Lemma settling_handler (t : N) (w : world) (req : request) :
  settling t w → settling t (fst (handler w req)).
Proof.
  intros H. unfold handler.
  destruct (String.eqb (method req) "POST"); [by apply settling_create_invoice|].
  by destruct (String.eqb (method req) "GET").
Qed.

Lemma settling_elapse (t d : N) (w : world) :
  settling t w → settling t (elapse d w).
Proof.
  intros (r & Hr & Hst). unfold elapse, run_due, settling. simpl.
  destruct Hst as [Hp|[Hlt Hin]].
  - destruct (fire_all_keeps (filter (is_due (clock w + d)) (timers w))
                (invoices w) _ r Hr) as (r' & Hr' & Hkeep).
    exists r'. split; [done|]. left. auto.
  - destruct (decide (t + delay ≤ clock w + d)%N) as [Hdue|Hwait].
    + set (tm := {| due := t + delay; target := invoice_id_at t |}) in *.
      assert (Hin' : tm ∈ filter (is_due (clock w + d)) (timers w)).
      { apply list_elem_of_filter. split; [exact Hdue | exact Hin]. }
      destruct (fire_all_pays _ (invoices w) tm r Hin' Hr) as (r' & Hr' & Hp).
      exists r'. split; [exact Hr'|by left].
    + destruct (fire_all_keeps (filter (is_due (clock w + d)) (timers w))
                  (invoices w) _ r Hr) as (r' & Hr' & _).
      exists r'. split; [done|]. right. split; [lia|].
      apply list_elem_of_filter. split; [|done]. unfold is_due. simpl. lia.
Qed.

Lemma settling_step (t : N) (w : world) (e : event) :
  settling t w → settling t (step w e).
Proof.
  destruct e; simpl; [apply settling_elapse | apply settling_handler].
Qed.

Lemma settling_run (t : N) (es : list event) (w : world) :
  settling t w → settling t (run w es).
Proof.
  unfold run. revert w. induction es as [|e es IH]; intros w H; simpl; [done|].
  apply IH. by apply settling_step.
Qed.

Lemma clock_handler (w : world) (req : request) : clock (fst (handler w req)) = clock w.
Proof.
  unfold handler, create_invoice.
  repeat (case_match; simpl; try done).
Qed.

Lemma clock_run (es : list event) (w : world) :
  clock (run w es) = (clock w + elapsed es)%N.
Proof.
  unfold run. revert w. induction es as [|[d|req] es IH]; intros w; simpl.
  - lia.
  - rewrite IH. unfold elapse, run_due. simpl. lia.
  - rewrite IH. by rewrite clock_handler.
Qed.

(** Once the delay is over, a settling invoice is paid. *)
Lemma settling_paid (t : N) (w : world) :
  settling t w → (t + delay ≤ clock w)%N →
  ∃ r, invoices w !! invoice_id_at t = Some r ∧ status r = paid.
Proof.
  intros (r & Hr & [Hp|[Hlt _]]) Hle; [eauto|lia].
Qed.

Lemma positive_amount_truthy (q : Q) : (0 < q)%Q → truthy (Num (Finite q)) = true.
Proof.
  intros Hq. simpl. apply negb_true_iff. apply not_true_is_false.
  intros Heq. apply Qeq_bool_iff in Heq. rewrite Heq in Hq.
  by apply Qlt_irrefl in Hq.
Qed.

Lemma nonempty_truthy (s : string) : s ≠ "" → truthy (Str s) = true.
Proof.
  intros Hs. simpl. apply negb_true_iff. by apply String.eqb_neq.
Qed.

Lemma handler_post (w : world) (b : value) : handler w (post b) = create_invoice w b.
Proof. reflexivity. Qed.

(** C6. An invoice created with a positive amount and non-empty
    identifiers is reported [pending] by a status request made right after
    the creation, and [paid] by every status request made once the fixed
    delay of 10000 ms has passed, whatever other requests reached the
    endpoint in between. *)
Theorem invoice_pending_then_paid (w : world) (q : Q) (contractId milestoneId : string) :
  (0 < q)%Q → contractId ≠ "" → milestoneId ≠ "" →
  let created := handler w (post (invoice_body (Num (Finite q)) (Str contractId)
                                               (Str milestoneId))) in
  let id := invoice_id_at (clock w) in
  created.2 = Sent 200 (Obj [("invoice_id", Str id); ("qr_url", Str (qr_url_of id))])
  ∧ (handler created.1 (get_status id)).2 = Sent 200 (Obj [("status", Str "pending")])
  ∧ ∀ es : list event,
      (delay ≤ elapsed es)%N →
      (handler (run created.1 es) (get_status id)).2
      = Sent 200 (Obj [("status", Str "paid")]).
Proof.
  intros Hq Hc Hm created id.
  pose proof (positive_amount_truthy q Hq) as Ta.
  pose proof (nonempty_truthy _ Hc) as Tc.
  pose proof (nonempty_truthy _ Hm) as Tm.
  pose proof (settling_created w _ _ _ Ta Tc Tm) as Hset.
  rewrite <- handler_post in Hset. fold created in Hset.
  assert (Hclock : clock created.1 = clock w) by apply clock_handler.
  subst created id. rewrite handler_post in *.
  rewrite create_invoice_accepts in * by done. cbn [fst snd] in *.
  split; [done|]. split.
  - erewrite poll_own; [|cbn [invoices]; apply lookup_insert_eq]. reflexivity.
  - intros es Hes.
    pose proof (settling_run _ es _ Hset) as Hlater.
    apply settling_paid in Hlater as (r & Hr & Hp).
    + erewrite poll_own by exact Hr. by rewrite Hp.
    + rewrite clock_run. cbn [clock]. lia.
Qed.

Lemma invoice_pending_then_paid_witness :
  let w := boot 1700000000000 in
  let created := handler w (post (invoice_body (Num (Finite 100)) (Str "c1") (Str "m1"))) in
  ((0 < 100)%Q ∧ "c1" ≠ "" ∧ "m1" ≠ "")
  ∧ created.2 = Sent 200 (Obj [("invoice_id", Str "MOCK-1700000000000");
                               ("qr_url", Str (qr_url_of "MOCK-1700000000000"))])
  ∧ (handler created.1 (get_status "MOCK-1700000000000")).2
    = Sent 200 (Obj [("status", Str "pending")])
  ∧ ∀ es : list event,
      (delay ≤ elapsed es)%N →
      (handler (run created.1 es) (get_status "MOCK-1700000000000")).2
      = Sent 200 (Obj [("status", Str "paid")]).
Proof.
  intros w created.
  assert (H : (0 < 100)%Q ∧ "c1" ≠ "" ∧ "m1" ≠ "") by (split; [reflexivity|split; discriminate]).
  split; [exact H|].
  destruct H as (Hq & Hc & Hm).
  exact (invoice_pending_then_paid (boot 1700000000000) 100 "c1" "m1" Hq Hc Hm).
Defined.

(** *** Before the delay is over *)

Lemma fire_all_untouched (ts : list timer) inv k :
  (∀ tm, tm ∈ ts → target tm ≠ k) → foldr fire inv ts !! k = inv !! k.
Proof.
  induction ts as [|tm ts IH]; intros Hts; simpl; [done|].
  rewrite fire_lookup_ne by (apply Hts; left).
  apply IH. intros tm' Hin. apply Hts. by right.
Qed.

Lemma well_timed_handler (w : world) (req : request) :
  well_timed w → well_timed (handler w req).1.
Proof.
  intros Hw. unfold handler.
  destruct (String.eqb (method req) "POST");
    [|by destruct (String.eqb (method req) "GET")].
  unfold create_invoice.
  destruct (destructure "amount" (body req)), (destructure "contractId" (body req)),
    (destructure "milestoneId" (body req)); cbn [fst]; try done.
  destruct (negb _ || negb _ || negb _); cbn [fst]; [done|].
  intros tm [Hin|Hin%list_elem_of_singleton]%elem_of_app; [by apply Hw|].
  subst tm. by exists (clock w).
Qed.

Lemma well_timed_elapse (d : N) (w : world) : well_timed w → well_timed (elapse d w).
Proof.
  intros Hw tm Hin. unfold elapse, run_due in Hin. cbn [timers] in Hin.
  apply list_elem_of_filter in Hin as [_ Hin]. by apply Hw.
Qed.

Lemma well_timed_run (es : list event) (w : world) :
  well_timed w → well_timed (run w es).
Proof.
  unfold run. revert w. induction es as [|[d|req] es IH]; intros w Hw; simpl;
    [done|apply IH, well_timed_elapse, Hw|apply IH, well_timed_handler, Hw].
Qed.

Lemma well_timed_boot (t0 : N) : well_timed (boot t0).
Proof. intros tm Hin. by apply elem_of_nil in Hin. Qed.

Lemma waiting_handler (t : N) (w : world) (req : request) :
  waiting t w → waiting t (handler w req).1.
Proof.
  intros (r & Hr & Hst). unfold handler.
  destruct (String.eqb (method req) "POST");
    [|destruct (String.eqb (method req) "GET"); by exists r].
  unfold create_invoice.
  destruct (destructure "amount" (body req)), (destructure "contractId" (body req)),
    (destructure "milestoneId" (body req)); cbn [fst]; try by exists r.
  destruct (negb _ || negb _ || negb _); cbn [fst]; [by exists r|].
  unfold waiting. cbn [invoices].
  destruct (decide (invoice_id_at (clock w) = invoice_id_at t)) as [->|Hne].
  - eexists. split; [apply lookup_insert_eq|done].
  - exists r. by rewrite lookup_insert_ne.
Qed.

(** No callback for the invoice runs before its due time. *)
Lemma waiting_elapse (t d : N) (w : world) :
  well_timed w → (clock w + d < t + delay)%N →
  waiting t w → waiting t (elapse d w).
Proof.
  intros Hw Hlt (r & Hr & Hst). exists r. split; [|done].
  unfold elapse, run_due. cbn [invoices clock timers].
  rewrite fire_all_untouched; [done|].
  intros tm [Hdue Hin]%list_elem_of_filter Htarget.
  destruct (Hw tm Hin) as (t' & Ht' & Hd').
  rewrite Ht' in Htarget. apply invoice_id_at_inj in Htarget as ->.
  unfold is_due in Hdue. cbn in Hdue. lia.
Qed.

Lemma waiting_run (t : N) (es : list event) (w : world) :
  well_timed w → (clock w + elapsed es < t + delay)%N →
  waiting t w → waiting t (run w es).
Proof.
  unfold run. revert w.
  induction es as [|[d|req] es IH]; intros w Hw Hlt Hwait; simpl; [done| |].
  - simpl in Hlt. apply IH.
    + by apply well_timed_elapse.
    + unfold elapse, run_due. cbn [clock]. lia.
    + apply waiting_elapse; [done|lia|done].
  - simpl in Hlt. apply IH.
    + by apply well_timed_handler.
    + by rewrite clock_handler.
    + by apply waiting_handler.
Qed.

(** X6. On a server started at any time and after any history, an invoice
    is reported [pending] by every status request made before the delay of
    10000 ms is over, whatever other requests came in between: no callback
    runs early. *)
Lemma invoice_pending_before_delay (t0 : N) (history : list event)
    (a c m : value) (es : list event) :
  truthy a = true → truthy c = true → truthy m = true →
  (elapsed es < delay)%N →
  let w := run (boot t0) history in
  let created := handler w (post (invoice_body a c m)) in
  (handler (run created.1 es) (get_status (invoice_id_at (clock w)))).2
  = Sent 200 (Obj [("status", Str "pending")]).
Proof.
  intros Ta Tc Tm Hes w created.
  assert (Hw : well_timed created.1)
    by apply well_timed_handler, well_timed_run, well_timed_boot.
  assert (Hclock : clock created.1 = clock w) by apply clock_handler.
  assert (Hwait : waiting (clock w) created.1).
  { subst created. rewrite handler_post, create_invoice_accepts by done.
    eexists. split; [apply lookup_insert_eq|done]. }
  destruct (waiting_run (clock w) es created.1 Hw ltac:(lia) Hwait)
    as (r & Hr & Hst).
  erewrite poll_own by exact Hr. by rewrite Hst.
Qed.

(** C7, as the code has it.  The three inputs are checked for presence, not
    for sign: a request whose [amount], [contractId] or [milestoneId] is
    falsy (missing, [null], [0], [NaN], [false] or the empty string) is
    answered 400 and leaves the invoices and the timers as they were; a
    request whose three fields are truthy is answered 200. *)
Theorem create_invoice_presence_check (w : world) (b amount contractId milestoneId : value) :
  destructure "amount" b = Some amount →
  destructure "contractId" b = Some contractId →
  destructure "milestoneId" b = Some milestoneId →
  (truthy amount && truthy contractId && truthy milestoneId = false →
     handler w (post b)
     = (w, Sent 400 (error_payload "amount, contractId and milestoneId are required")))
  ∧ (truthy amount && truthy contractId && truthy milestoneId = true →
     ∃ payload, (handler w (post b)).2 = Sent 200 payload).
Proof.
  intros Ha Hc Hm. rewrite handler_post. unfold create_invoice.
  rewrite Ha, Hc, Hm.
  destruct (truthy amount), (truthy contractId), (truthy milestoneId);
    simpl; split; intros; try done; eauto.
Qed.

Lemma create_invoice_presence_check_witness :
  let b := invoice_body (Num (Finite 0)) (Str "c1") (Str "m1") in
  destructure "amount" b = Some (Num (Finite 0))
  ∧ destructure "contractId" b = Some (Str "c1")
  ∧ destructure "milestoneId" b = Some (Str "m1")
  ∧ truthy (Num (Finite 0)) && truthy (Str "c1") && truthy (Str "m1") = false
  ∧ handler (boot 0) (post b)
    = (boot 0, Sent 400 (error_payload "amount, contractId and milestoneId are required")).
Proof.
  intros b. repeat (split; [reflexivity|]).
  exact (proj1 (create_invoice_presence_check (boot 0) b _ _ _ eq_refl eq_refl eq_refl)
               eq_refl).
Defined.

(** C7 as stated fails: a negative amount passes the check, the request is
    answered 200 and an invoice record is stored. *)
Lemma negative_amount_creates_invoice :
  let w := boot 1700000000000 in
  let req := post (invoice_body (Num (Finite (-5))) (Str "c1") (Str "m1")) in
  (-5 < 0)%Q
  ∧ (handler w req).2
    = Sent 200 (Obj [("invoice_id", Str "MOCK-1700000000000");
                     ("qr_url", Str (qr_url_of "MOCK-1700000000000"))])
  ∧ invoices w !! "MOCK-1700000000000" = None
  ∧ invoices (handler w req).1 !! "MOCK-1700000000000"
    = Some {| status := pending; createdAt := 1700000000000 |}.
Proof. vm_compute. repeat split; reflexivity. Qed.

(** C8, the failing request.  [invoices] is a plain object, so looking up
    the name of a member of [Object.prototype] finds that member: with no
    invoice at all, polling [constructor] is answered 200 with an undefined
    status, not 404. *)
Theorem poll_inherited_name_answers_200 :
  invoices (boot 0) !! "constructor" = None
  ∧ handler (boot 0) (get_status "constructor")
    = (boot 0, Sent 200 (Obj [("status", Undefined)])).
Proof. split; reflexivity. Qed.

(** The same for every inherited name that has no own entry. *)
Lemma poll_inherited_name (w : world) (k : string) :
  k ∈ object_prototype_keys → invoices w !! k = None →
  handler w (get_status k) = (w, Sent 200 (Obj [("status", Undefined)])).
Proof.
  intros Hk Hnone. unfold handler, get_status, poll_invoice. cbn.
  assert (String.eqb k "" = false) as ->.
  { apply String.eqb_neq. intros ->.
    apply (bool_decide_eq_true_2 _) in Hk. vm_compute in Hk. discriminate. }
  unfold get. rewrite Hnone. by rewrite bool_decide_eq_true_2.
Qed.

(** The rest of C8 holds: an identifier that is neither stored nor the name
    of an inherited member is answered 404, a missing or empty parameter
    400, and a method other than POST and GET 405. *)
Lemma poll_unknown_id (w : world) (id : string) (b : value) :
  id ≠ "" → id ∉ object_prototype_keys → invoices w !! id = None →
  handler w {| method := "GET"; body := b; invoice_id := QOne id |}
  = (w, Sent 404 (error_payload "invoice not found")).
Proof.
  intros Hne Hproto Hnone. unfold handler, poll_invoice. cbn.
  apply String.eqb_neq in Hne. rewrite Hne. unfold get. rewrite Hnone.
  by rewrite bool_decide_eq_false_2.
Qed.

Lemma poll_missing_id (w : world) (b : value) :
  handler w {| method := "GET"; body := b; invoice_id := QAbsent |}
  = (w, Sent 400 (error_payload "invoice_id query param is required")).
Proof. reflexivity. Qed.

Lemma other_method_405 (w : world) (req : request) :
  method req ≠ "POST" → method req ≠ "GET" →
  handler w req = (w, Sent 405 (error_payload "Method not allowed")).
Proof.
  intros Hp Hg. unfold handler.
  apply String.eqb_neq in Hp, Hg. by rewrite Hp, Hg.
Qed.

(** C9, the failing input.  The identifier is the clock reading: two valid
    requests handled within the same millisecond get the same identifier,
    and the second overwrites the record of the first. *)
Theorem same_millisecond_same_invoice_id :
  let w := boot 1700000000000 in
  let first := handler w (post (invoice_body (Num (Finite 100)) (Str "c1") (Str "m1"))) in
  let second := handler first.1 (post (invoice_body (Num (Finite 250)) (Str "c2") (Str "m7"))) in
  first.2 = Sent 200 (Obj [("invoice_id", Str "MOCK-1700000000000");
                           ("qr_url", Str (qr_url_of "MOCK-1700000000000"))])
  ∧ second.2 = first.2
  ∧ size (invoices second.1) = 1.
Proof. vm_compute. repeat split; reflexivity. Qed.

(** In general: two accepted requests with no tick of the clock between
    them are answered alike. *)
Lemma same_clock_same_invoice_id (w : world) (a c m a' c' m' : value) :
  truthy a = true → truthy c = true → truthy m = true →
  truthy a' = true → truthy c' = true → truthy m' = true →
  let first := handler w (post (invoice_body a c m)) in
  (handler first.1 (post (invoice_body a' c' m'))).2 = first.2.
Proof.
  intros. subst first. rewrite !handler_post.
  by rewrite !create_invoice_accepts.
Qed.

(** Requests handled at different clock readings do get different
    identifiers. *)
Lemma distinct_clock_distinct_invoice_id (a b : N) :
  a ≠ b → invoice_id_at a ≠ invoice_id_at b.
Proof. intros Hne Heq. by apply Hne, invoice_id_at_inj. Qed.

(** C10. A GET request whose [invoice_id] parameter arrives as an array is
    answered 400 with the message of a missing parameter; the answer is the
    same for every content of the invoice store, and the store is left as it
    was. *)
Theorem repeated_invoice_id_rejected (w : world) (b : value) (ids : list string) :
  let req := {| method := "GET"; body := b; invoice_id := QMany ids |} in
  handler w req = (w, Sent 400 (error_payload "invoice_id query param is required"))
  ∧ handler w req = handler w {| method := "GET"; body := b; invoice_id := QAbsent |}
  ∧ ∀ w' : world, (handler w' req).2 = (handler w req).2.
Proof. repeat split. Qed.

End QPayFacts.

(** * Tables *)

Module TableFacts.
Import Store.

Section Tables.
Context {A : Type}.
Implicit Types (keep : A → bool) (f : A → A) (rows : list A).

Lemma elem_of_update_where keep f rows r' :
  r' ∈ update_where keep f rows ↔
  ∃ r, r ∈ rows ∧ r' = (if keep r then f r else r).
Proof.
  unfold update_where. rewrite list_elem_of_fmap.
  split; intros (r & H1 & H2); exists r; done.
Qed.

Lemma select_where_app keep rows1 rows2 :
  select_where keep (rows1 ++ rows2)
  = select_where keep rows1 ++ select_where keep rows2.
Proof. apply List.filter_app. Qed.

(** Rewriting rows does not change which rows a filter picks when the
    rewrite leaves the filtered column alone. *)
Lemma select_update_where keep keep' f rows :
  (∀ r, keep (f r) = keep r) →
  select_where keep (update_where keep' f rows)
  = update_where keep' f (select_where keep rows).
Proof.
  intros Hf. unfold select_where, update_where.
  induction rows as [|r rows IH]; simpl; [done|].
  assert (keep (if keep' r then f r else r) = keep r) as ->
    by (destruct (keep' r); auto).
  destruct (keep r); simpl; by rewrite IH.
Qed.
End Tables.

(** The first row picked by a filter, after rewriting the rows it picks. *)
Lemma head_select_update {A} (keep : A → bool) (f : A → A) (rows : list A) :
  (∀ r, keep (f r) = keep r) →
  head (select_where keep (update_where keep f rows))
  = f <$> head (select_where keep rows).
Proof.
  intros Hf. unfold select_where, update_where.
  induction rows as [|r rows IH]; simpl; [done|].
  destruct (keep r) eqn:Hk; simpl.
  - by rewrite Hf, Hk.
  - by rewrite Hk.
Qed.

Lemma eqb_true (a b : string) : String.eqb a b = true ↔ a = b.
Proof. apply String.eqb_eq. Qed.

Lemma eqb_false (a b : string) : String.eqb a b = false ↔ a ≠ b.
Proof. apply String.eqb_neq. Qed.

End TableFacts.

(** * Properties of the hire workflow *)

Module HireFacts.
Import Store Hire TableFacts.

(** The rows of [proposals] once both proposal updates went through. *)
Lemma proposals_after_both (project : Project) (proposal : Proposal) (d : db) row :
  row ∈ Store.proposals (reject_others project proposal (accept_chosen proposal d)) →
  (proposal_id row = id proposal → proposal_status row = "accepted")
  ∧ (proposal_id row ≠ id proposal → proposal_project row = pid project →
     proposal_status row = "rejected").
Proof.
  unfold reject_others, accept_chosen. cbn [Store.proposals set_proposals].
  intros (r1 & Hr1 & ->)%elem_of_update_where.
  apply elem_of_update_where in Hr1 as (r0 & _ & ->).
  destruct (String.eqb (proposal_id r0) (id proposal)) eqn:Hid; cbn.
  - rewrite Hid. cbn. split; [done|]. intros Hne. by apply eqb_true in Hid.
  - rewrite Hid. cbn. apply eqb_false in Hid.
    destruct (String.eqb (proposal_project r0) (pid project)) eqn:Hp; cbn.
    + split; [done|done].
    + apply eqb_false in Hp. split; [done|]. intros _ Heq. done.
Qed.

Lemma contracts_attempt r write d :
  (∀ d0, contracts (write d0) = contracts d0) →
  contracts (attempt r write d) = contracts d.
Proof. intros H. destruct r; simpl; auto. Qed.

Lemma projects_attempt r write d :
  (∀ d0, projects (write d0) = projects d0) →
  projects (attempt r write d) = projects d.
Proof. intros H. destruct r; simpl; auto. Qed.

(** The success message is shown exactly when a project is loaded and the
    first two writes went through, as long as the store does not answer
    with the text of the success message itself. *)
Lemma hire_reports_success_inv (e : hire_env) (proposal : Proposal) (pg : page) (d : db) :
  on_insert e ≠ Some created_text → on_project_update e ≠ Some created_text →
  message (handleHire e proposal pg d).1 = Some created_text →
  is_Some (project pg) ∧ on_insert e = None ∧ on_project_update e = None.
Proof.
  intros Hi Hu. unfold handleHire.
  destruct (project pg) as [P|]; [|by intros [=]].
  destruct (on_insert e) as [err|]; [by intros ?|].
  destruct (on_project_update e) as [err|]; [by intros ?|].
  intros _. repeat split. by eexists.
Qed.

(** C1, as the code has it.  When a project is loaded and the store accepts
    the contract insert and the project update, the hire reports success,
    and then: a Contract for the project has been added whose total amount
    is the proposal's proposed budget if present and otherwise the
    project's budget; the project row has status [in_progress]; the page
    shows the chosen proposal accepted and every other listed proposal
    rejected; in the store the chosen proposal is accepted and the other
    proposals of the project are rejected if the two proposal updates went
    through; and the new contract is the only one of the project if the
    project had none before. *)
Theorem hire_success_effects (e : hire_env) (proposal : Proposal) (pg : page)
    (d : db) (P : Project) :
  project pg = Some P → on_insert e = None → on_project_update e = None →
  let pg' := (handleHire e proposal pg d).1 in
  let d' := (handleHire e proposal pg d).2 in
  message pg' = Some created_text
  ∧ contracts d' = contracts d ++ [new_contract e P proposal]
  ∧ contract_project (new_contract e P proposal) = pid P
  ∧ total_amount (new_contract e P proposal)
    = match Hire.proposed_budget proposal with
      | Some bid => Some bid
      | None => budget P
      end
  ∧ (∀ row, row ∈ projects d' → project_id row = pid P →
            project_status row = "in_progress")
  ∧ (pstatus <$> project pg') = Some "in_progress"
  ∧ (∀ p, p ∈ proposals pg' →
          (id p = id proposal → status p = "accepted")
          ∧ (id p ≠ id proposal → status p = "rejected"))
  ∧ (on_accept e = None → on_reject e = None →
     ∀ row, row ∈ Store.proposals d' →
            (proposal_id row = id proposal → proposal_status row = "accepted")
            ∧ (proposal_id row ≠ id proposal → proposal_project row = pid P →
               proposal_status row = "rejected"))
  ∧ (contracts_of (pid P) d = [] →
     contracts_of (pid P) d' = [new_contract e P proposal]).
Proof.
  intros HP Hins Hupd pg' d'. subst pg' d'.
  unfold handleHire. rewrite HP, Hins, Hupd. cbn [fst snd message project proposals].
  split; [done|].
  assert (Hcs : contracts
                  (attempt (on_reject e) (reject_others P proposal)
                     (attempt (on_accept e) (accept_chosen proposal)
                        (set_projects
                           (update_where (λ p, String.eqb (project_id p) (pid P))
                              (with_project_status "in_progress")
                              (projects (set_contracts
                                 (contracts d ++ [new_contract e P proposal]) d)))
                           (set_contracts (contracts d ++ [new_contract e P proposal]) d))))
                = contracts d ++ [new_contract e P proposal]).
  { rewrite !contracts_attempt by done. done. }
  split; [exact Hcs|]. split; [done|]. split; [by destruct proposal as [? ? [?|] ?]|].
  split.
  { intros row. rewrite !projects_attempt by done. cbn [projects set_projects set_contracts].
    intros (r & _ & ->)%elem_of_update_where.
    destruct (String.eqb (project_id r) (pid P)) eqn:Hid; cbn; [done|].
    apply eqb_false in Hid. done. }
  split; [done|]. split.
  { intros p (p0 & -> & _)%list_elem_of_fmap. unfold relabel. cbn.
    destruct (String.eqb (id p0) (id proposal)) eqn:Hid.
    - split; [done|]. by apply eqb_true in Hid.
    - split; [|done]. by apply eqb_false in Hid. }
  split.
  { intros -> -> row. cbn [attempt]. apply proposals_after_both. }
  intros Hnone. unfold contracts_of in *. rewrite Hcs.
  rewrite select_where_app, Hnone. cbn.
  by rewrite String.eqb_refl.
Qed.

Lemma hire_success_effects_witness :
  let chosen := view_of_proposal Sample.bid_carol in
  let after := handleHire (Sample.writes_ok "c1") chosen Sample.review Sample.market in
  (project Sample.review = Some (view_of_project Sample.job)
   ∧ on_insert (Sample.writes_ok "c1") = None
   ∧ on_project_update (Sample.writes_ok "c1") = None)
  ∧ message after.1 = Some created_text
  ∧ total_amount <$> contracts_of "P1" after.2 = [Some (Js.Finite 500000)].
Proof.
  intros chosen after.
  assert (H : project Sample.review = Some (view_of_project Sample.job)
              ∧ on_insert (Sample.writes_ok "c1") = None
              ∧ on_project_update (Sample.writes_ok "c1") = None)
    by (repeat split; reflexivity).
  split; [exact H|]. destruct H as (HP & Hi & Hu).
  destruct (hire_success_effects (Sample.writes_ok "c1") chosen Sample.review
              Sample.market _ HP Hi Hu)
    as (Hmsg & _ & _ & _ & _ & _ & _ & _ & Hone).
  split; [exact Hmsg|].
  exact (f_equal (fmap total_amount) (Hone eq_refl)).
Defined.

(** C1 as stated fails.  Alice owns the open project, both proposals are
    pending and she hires Bob; the store times out on the update that
    rejects the other proposals.  The page reports success, and Carol's
    proposal is still pending in the store.  Likewise, when a first try
    stopped at the project update, the project is still open and Bob's
    proposal still pending, the Hire button is still there, and the second
    try reports success with two contracts recorded for the project. *)
Lemma hire_success_leaves_sibling_pending :
  let chosen := view_of_proposal Sample.bid_bob in
  let after := handleHire Sample.reject_fails chosen Sample.review Sample.market in
  ((pstatus <$> project Sample.review) = Some "open"
   ∧ (client_id <$> project Sample.review) = Some Sample.alice
   ∧ status chosen = "pending"
   ∧ hire_offered Sample.review chosen = true
   ∧ message after.1 = Some created_text
   ∧ Sample.bid_carol ∈ Store.proposals after.2
   ∧ proposal_project Sample.bid_carol = "P1"
   ∧ proposal_status Sample.bid_carol = "pending")
  ∧ (projects Sample.first_try.2 = [Sample.job]
     ∧ Store.proposals Sample.first_try.2 = [Sample.bid_bob; Sample.bid_carol]
     ∧ hire_offered Sample.first_try.1 chosen = true
     ∧ message Sample.second_try.1 = Some created_text
     ∧ length (contracts_of "P1" Sample.second_try.2) = 2).
Proof.
  vm_compute. repeat split; try reflexivity.
  apply list_elem_of_further, list_elem_of_here.
Qed.

(** C3, as the code has it.  [handleHire] does not look at the status of
    the project.  It stops without writing when no project is loaded or
    when the store refuses the contract insert; in every other case,
    whatever the status of the project, a Contract is added. *)
Theorem hire_ignores_project_status (e : hire_env) (proposal : Proposal)
    (pg : page) (d : db) :
  (project pg = None → handleHire e proposal pg d = (stopped not_found_text pg, d))
  ∧ (∀ P err, project pg = Some P → on_insert e = Some err →
       handleHire e proposal pg d = (stopped err pg, d))
  ∧ (∀ P, project pg = Some P → on_insert e = None →
       contracts (handleHire e proposal pg d).2
       = contracts d ++ [new_contract e P proposal])
  ∧ (∀ P s, project pg = Some P →
       (handleHire e proposal
          {| project := Some {| pid := pid P; title := title P; pstatus := s;
                                client_id := client_id P; budget := budget P |};
             proposals := proposals pg; role := role pg; loading := loading pg;
             message := message pg; actionLoading := actionLoading pg |} d).2
       = (handleHire e proposal pg d).2).
Proof.
  unfold handleHire. repeat split.
  - by intros ->.
  - by intros P err -> ->.
  - intros P -> ->. destruct (on_project_update e); cbn [snd]; [done|].
    by rewrite !contracts_attempt.
  - intros P s ->. cbn [project].
    destruct (on_insert e); [done|]. by destruct (on_project_update e).
Qed.

Lemma hire_ignores_project_status_witness :
  let chosen := view_of_proposal Sample.bid_carol in
  (pstatus <$> project Sample.review_again) = Some "in_progress"
  ∧ on_insert (Sample.writes_ok "c2") = None
  ∧ contracts (handleHire (Sample.writes_ok "c2") chosen Sample.review_again
                          Sample.market_after_hire).2
    = contracts Sample.market_after_hire
      ++ [new_contract (Sample.writes_ok "c2")
            {| pid := "P1"; title := "Logo"; pstatus := "in_progress";
               client_id := Sample.alice; budget := Some (Js.Finite 500000) |}
            chosen].
Proof.
  intros chosen. split; [reflexivity|]. split; [reflexivity|].
  exact (proj1 (proj2 (proj2 (hire_ignores_project_status (Sample.writes_ok "c2")
                                chosen Sample.review_again Sample.market_after_hire)))
               _ eq_refl eq_refl).
Defined.

(** C3 as stated fails.  The project is [in_progress] and already has a
    contract, Carol's proposal is still pending, the page offers the Hire
    button for it, and the hire reports success and adds a second
    contract. *)
Lemma hire_on_project_in_progress_succeeds :
  let chosen := view_of_proposal Sample.bid_carol in
  let after := handleHire (Sample.writes_ok "c2") chosen Sample.review_again
                          Sample.market_after_hire in
  (pstatus <$> project Sample.review_again) = Some "in_progress"
  ∧ hire_offered Sample.review_again chosen = true
  ∧ message after.1 = Some created_text
  ∧ length (contracts_of "P1" Sample.market_after_hire) = 1
  ∧ length (contracts_of "P1" after.2) = 2.
Proof. vm_compute. repeat split; reflexivity. Qed.

(** C5, as the code has it.  With a project loaded: a failure of the
    contract insert or of the project update stops the workflow, which
    shows the error message of the store in place of the success message
    (after a failed project update the contract row stays); the answers to
    the two proposal updates are not looked at, so the outcome of the page
    does not depend on them. *)
Theorem hire_checked_failures_reported (e : hire_env) (proposal : Proposal)
    (pg : page) (d : db) (P : Project) :
  project pg = Some P →
  (∀ err, on_insert e = Some err →
     handleHire e proposal pg d = (stopped err pg, d))
  ∧ (∀ err, on_insert e = None → on_project_update e = Some err →
       handleHire e proposal pg d
       = (stopped err pg,
          set_contracts (contracts d ++ [new_contract e P proposal]) d))
  ∧ (∀ a r,
       (handleHire {| today := today e; new_contract_id := new_contract_id e;
                      on_insert := on_insert e;
                      on_project_update := on_project_update e;
                      on_accept := a; on_reject := r |} proposal pg d).1
       = (handleHire e proposal pg d).1).
Proof.
  intros HP. unfold handleHire. rewrite HP. repeat split.
  - by intros err ->.
  - by intros err -> ->.
  - intros a r. cbn. destruct (on_insert e); [done|].
    by destruct (on_project_update e).
Qed.

Lemma hire_checked_failures_reported_witness :
  let chosen := view_of_proposal Sample.bid_bob in
  project Sample.review = Some (view_of_project Sample.job)
  ∧ handleHire Sample.insert_fails chosen Sample.review Sample.market
    = (stopped "Failed to fetch" Sample.review, Sample.market).
Proof.
  intros chosen.
  assert (HP : project Sample.review = Some (view_of_project Sample.job))
    by reflexivity.
  split; [exact HP|].
  exact (proj1 (hire_checked_failures_reported Sample.insert_fails chosen
                  Sample.review Sample.market _ HP) "Failed to fetch" eq_refl).
Defined.

(** C5 as stated fails.  The store refuses the update that accepts the
    chosen proposal: the page still reports success and the proposal is
    still pending in the store.  And when a checked step fails, the message
    is the text of the store and does not say which step it was: a failed
    insert and a failed project update show the same message. *)
Lemma hire_unchecked_failure_reported_as_success :
  let chosen := view_of_proposal Sample.bid_bob in
  let after := handleHire Sample.accept_fails chosen Sample.review Sample.market in
  on_accept Sample.accept_fails = Some "permission denied for table proposals"
  ∧ message after.1 = Some created_text
  ∧ Sample.bid_bob ∈ Store.proposals after.2
  ∧ proposal_status Sample.bid_bob = "pending"
  ∧ message (handleHire Sample.insert_fails chosen Sample.review Sample.market).1
    = message (handleHire Sample.project_update_fails chosen Sample.review
                          Sample.market).1.
Proof.
  vm_compute. repeat split; try reflexivity. apply list_elem_of_here.
Qed.

End HireFacts.

(** * Properties of the contract dashboard *)

Module DashboardFacts.
Import Store Dashboard TableFacts.

Lemma isClient_true (pg : page) : isClient pg = true ↔ client_of_contract pg.
Proof.
  unfold isClient, client_of_contract. split.
  - destruct (profile pg) as [p|]; [|done]. destruct (contract pg) as [c|].
    + intros [Hr Hc]%andb_true_iff. exists p, c.
      apply eqb_true in Hr, Hc. done.
    + by rewrite andb_false_r.
  - intros (p & c & -> & -> & Hr & Hc).
    apply andb_true_iff. split; by apply eqb_true.
Qed.

Lemma isFreelancer_true (pg : page) : isFreelancer pg = true ↔ freelancer_of_contract pg.
Proof.
  unfold isFreelancer, freelancer_of_contract. split.
  - destruct (profile pg) as [p|]; [|done]. destruct (contract pg) as [c|].
    + intros [Hr Hc]%andb_true_iff. exists p, c.
      apply eqb_true in Hr, Hc. done.
    + by rewrite andb_false_r.
  - intros (p & c & -> & -> & Hr & Hc).
    apply andb_true_iff. split; by apply eqb_true.
Qed.

Ltac button_cases H :=
  unfold buttons in H; rewrite !elem_of_app in H;
  destruct H as [H|[H|H]];
  match type of H with
  | _ ∈ (if ?b then _ else _) =>
      let E := fresh "E" in
      destruct b eqn:E; [apply list_elem_of_singleton in H as ->
                        | by apply elem_of_nil in H]
  end.

(** Each button belongs to one actor. *)
Lemma buttons_actor (client freelancer : bool) (st : string) (a : action) :
  a ∈ buttons client freelancer st →
  match a with
  | Fund | Release => client = true
  | Submit => freelancer = true
  end.
Proof.
  intros H. button_cases H; by apply andb_true_iff in E as [? _].
Qed.

(** Each button asks for a forward move from the status it is drawn for. *)
Lemma buttons_forward (client freelancer : bool) (st : string) (a : action) :
  a ∈ buttons client freelancer st → forward st (requested_status a) = true.
Proof.
  intros H. button_cases H; apply andb_true_iff in E as [_ E];
    unfold forward, requested_status.
  - rewrite E. reflexivity.
  - apply orb_true_iff in E as [E|E]; rewrite E; cbn;
      by rewrite ?orb_true_r.
  - rewrite E. cbn. by rewrite ?orb_true_r.
Qed.

(** What a button on the screen tells about the page. *)
Lemma can_press_inv (pg : page) (mid : string) (a : action) :
  can_press pg mid a = true →
  loading pg = false ∧ actionLoading pg = false
  ∧ is_Some (contract pg)
  ∧ ∃ m, m ∈ milestones pg ∧ milestone_id m = mid
         ∧ a ∈ buttons (isClient pg) (isFreelancer pg) (milestone_status m).
Proof.
  unfold can_press, render.
  destruct (loading pg); [done|].
  destruct (contract pg) as [c|]; [|done].
  destruct (negb (isClient pg) && negb (isFreelancer pg)); [done|].
  intros (l & Hin & Hl)%existsb_exists.
  apply in_map_iff in Hin as (m & <- & Hm). cbn in Hl.
  apply andb_true_iff in Hl as [[Hid Ha]%andb_true_iff Hdis].
  apply eqb_true in Hid. apply bool_decide_eq_true in Ha.
  apply negb_true_iff in Hdis.
  repeat split; [done|by eexists|].
  exists m. by rewrite list_elem_of_In.
Qed.

Lemma stored_status_updated (d : db) (mid s stamp : string) :
  stored_status
    (set_milestones
       (update_where (λ m, String.eqb (milestone_id m) mid)
                     (with_milestone_status s stamp) (Store.milestones d)) d) mid
  = (λ _, s) <$> stored_status d mid.
Proof.
  unfold stored_status. cbn [Store.milestones set_milestones].
  rewrite head_select_update by done.
  by destruct (head _).
Qed.

(** [updateMilestoneStatus] writes the status it is given, whatever the
    stored status is. *)
Lemma updateMilestoneStatus_store (e : update_env) (route_id mid s : string)
    (pg : page) (d : db) :
  (updateMilestoneStatus e route_id mid s pg d).2
  = match on_update e with
    | Some _ => d
    | None =>
        set_milestones
          (update_where (λ m, String.eqb (milestone_id m) mid)
                        (with_milestone_status s (stamp e)) (Store.milestones d)) d
    end.
Proof. unfold updateMilestoneStatus. by destruct (on_update e). Qed.

Lemma onClick_requests (a : action) (e : update_env) (route_id mid : string)
    (pg : page) (d : db) :
  onClick a e route_id mid pg d
  = updateMilestoneStatus e route_id mid (requested_status a) pg d.
Proof. by destruct a. Qed.

(** C2, as the code has it.  The dashboard draws a button only for a
    forward move from the status it has loaded: pending to funded, funded
    to in_review, funded or in_review to released.  So a press on a page
    whose loaded status is the stored one either leaves the store as it is
    or moves the stored status forward to the status asked for.  There is
    no button for any other move, and no error for one. *)
Theorem dashboard_moves_forward (e : update_env) (route_id mid : string)
    (a : action) (pg : page) (d : db) :
  (∀ m, m ∈ milestones pg → milestone_id m = mid →
        stored_status d mid = Some (milestone_status m)) →
  let d' := (press e route_id mid a pg d).2 in
  (can_press pg mid a = true →
   ∃ m, m ∈ milestones pg ∧ milestone_id m = mid
        ∧ forward (milestone_status m) (requested_status a) = true)
  ∧ (d' = d
     ∨ ∃ from, stored_status d mid = Some from
               ∧ stored_status d' mid = Some (requested_status a)
               ∧ forward from (requested_status a) = true).
Proof.
  intros Hsync d'. subst d'. split.
  - intros (_ & _ & _ & m & Hm & Hid & Ha)%can_press_inv.
    exists m. eauto using buttons_forward.
  - unfold press. destruct (can_press pg mid a) eqn:Hcan; [|by left].
    apply can_press_inv in Hcan as (_ & _ & _ & m & Hm & Hid & Ha).
    rewrite onClick_requests, updateMilestoneStatus_store.
    destruct (on_update e); [by left|]. right.
    exists (milestone_status m). split; [by apply Hsync|]. split.
    + rewrite stored_status_updated, (Hsync m Hm Hid). done.
    + by eapply buttons_forward.
Qed.

Lemma dashboard_moves_forward_witness :
  (∀ m, m ∈ milestones Sample.tab → milestone_id m = "m1" →
        stored_status (Sample.escrow "pending") "m1" = Some (milestone_status m))
  ∧ stored_status (Sample.escrow "pending") "m1" = Some "pending"
  ∧ stored_status Sample.funded_run.2 "m1" = Some "funded".
Proof.
  assert (H : ∀ m, m ∈ milestones Sample.tab → milestone_id m = "m1" →
                   stored_status (Sample.escrow "pending") "m1"
                   = Some (milestone_status m)).
  { intros m Hm _. apply list_elem_of_singleton in Hm as ->. reflexivity. }
  split; [exact H|]. split; [reflexivity|].
  destruct (dashboard_moves_forward Sample.update_ok "c1" "m1" Fund Sample.tab
              (Sample.escrow "pending") H) as [_ [Hsame|(from & _ & Hto & _)]].
  - discriminate (f_equal (λ d, stored_status d "m1") Hsame).
  - exact Hto.
Defined.

(** C2 as stated fails.  [updateMilestoneStatus] checks nothing: called on a
    pending milestone with [released] it writes [released] and sets no
    error.  And through the page: the second tab still shows the milestone
    as pending after the first tab has released it, offers [Fund], and the
    press takes the stored status from [released] back to [funded], again
    without an error. *)
Lemma released_milestone_funded_again :
  let direct := updateMilestoneStatus Sample.update_ok "c1" "m1" "released"
                  Sample.tab (Sample.escrow "pending") in
  forward "pending" "released" = false
  ∧ stored_status direct.2 "m1" = Some "released"
  ∧ error direct.1 = None
  ∧ forward "released" "funded" = false
  ∧ stored_status Sample.released_run.2 "m1" = Some "released"
  ∧ can_press Sample.tab "m1" Fund = true
  ∧ stored_status Sample.stale_run.2 "m1" = Some "funded"
  ∧ error Sample.stale_run.1 = None.
Proof. vm_compute. repeat split; reflexivity. Qed.







End DashboardFacts.

(** * More on the mock QPay endpoint *)

Module QPayMore.
Import Js QPay QPayInv QPayFacts.

Lemma lookup_handler_keeps (w : world) (req : request) k r :
  invoices w !! k = Some r → is_Some (invoices (handler w req).1 !! k).
Proof.
  intros Hr. unfold handler.
  destruct (String.eqb (method req) "POST");
    [|destruct (String.eqb (method req) "GET"); by eexists].
  unfold create_invoice.
  destruct (destructure "amount" (body req)), (destructure "contractId" (body req)),
    (destructure "milestoneId" (body req)); cbn [fst]; try by eexists.
  destruct (negb _ || negb _ || negb _); cbn [fst invoices]; [by eexists|].
  destruct (decide (invoice_id_at (clock w) = k)) as [<-|Hne].
  - rewrite lookup_insert_eq. by eexists.
  - rewrite lookup_insert_ne by done. by eexists.
Qed.

Lemma lookup_run_keeps (es : list event) (w : world) k r :
  invoices w !! k = Some r → is_Some (invoices (run w es) !! k).
Proof.
  unfold run. revert w r.
  induction es as [|[d|req] es IH]; intros w r Hr; simpl; [by eexists| |].
  - destruct (fire_all_keeps (filter (is_due (clock w + d)) (timers w))
                (invoices w) k r Hr) as (r' & Hr' & _).
    eapply IH. unfold elapse, run_due. cbn [invoices clock timers]. exact Hr'.
  - destruct (lookup_handler_keeps w req k r Hr) as [r' Hr']. by eapply IH.
Qed.

(** What a status request answers, read off the store. *)
Lemma poll_200_inv (w : world) (id : string) (p : value) :
  (handler w (get_status id)).2 = Sent 200 p →
  id ≠ ""
  ∧ ((∃ r, invoices w !! id = Some r ∧ p = Obj [("status", Str (status_text (status r)))])
     ∨ (invoices w !! id = None ∧ id ∈ object_prototype_keys
        ∧ p = Obj [("status", Undefined)])).
Proof.
  unfold handler, get_status, poll_invoice, get. cbn.
  destruct (String.eqb id "") eqn:Hid; [by intros [=]|].
  apply String.eqb_neq in Hid. intros H. split; [done|].
  destruct (invoices w !! id) as [r|] eqn:Hr.
  - left. exists r. split; [done|]. by injection H as <-.
  - right. case_bool_decide as Hk; [|by injection H].
    split; [done|]. split; [done|]. by injection H as <-.
Qed.

Lemma poll_answers_200 (w : world) (id : string) :
  id ≠ "" → (is_Some (invoices w !! id) ∨ id ∈ object_prototype_keys) →
  ∃ p, (handler w (get_status id)).2 = Sent 200 p.
Proof.
  intros Hid%String.eqb_neq H. unfold handler, get_status, poll_invoice, get. cbn.
  rewrite Hid. destruct (invoices w !! id) as [r|] eqn:Hr; [by eexists|].
  destruct H as [[? [=]]|Hk]. rewrite bool_decide_eq_true_2 by done. by eexists.
Qed.

(** X1. An invoice identifier that a status request has once answered with
    200 is answered with 200 by every later status request, whatever
    requests and however much time came in between: records are never
    removed from the store. *)
Theorem known_invoice_stays_known (w : world) (id : string) (p : value)
    (es : list event) :
  (handler w (get_status id)).2 = Sent 200 p →
  ∃ p', (handler (run w es) (get_status id)).2 = Sent 200 p'.
Proof.
  intros (Hid & [(r & Hr & _)|(_ & Hk & _)])%poll_200_inv.
  - apply poll_answers_200; [done|]. left. by eapply lookup_run_keeps.
  - apply poll_answers_200; [done|]. by right.
Qed.

Lemma known_invoice_stays_known_witness :
  let w := (handler (boot 5) (post (invoice_body (Num (Finite 100)) (Str "c1") (Str "m1")))).1 in
  (handler w (get_status "MOCK-5")).2 = Sent 200 (Obj [("status", Str "pending")])
  ∧ ∃ p', (handler (run w [Elapse 3; Http (get_status "x"); Elapse 20000])
                   (get_status "MOCK-5")).2 = Sent 200 p'.
Proof.
  intros w.
  assert (H : (handler w (get_status "MOCK-5")).2
              = Sent 200 (Obj [("status", Str "pending")])) by reflexivity.
  split; [exact H|].
  exact (known_invoice_stays_known w "MOCK-5" _
           [Elapse 3; Http (get_status "x"); Elapse 20000] H).
Defined.

(** *** Soundness of the store *)

Lemma fire_lookup_target (t : timer) (inv : gmap string invoice) :
  fire t inv !! target t = mark_paid <$> inv !! target t.
Proof. unfold fire. by rewrite lookup_alter_eq. Qed.

Lemma fire_all_origin (ts : list timer) inv k r' :
  foldr fire inv ts !! k = Some r' →
  ∃ r, inv !! k = Some r
       ∧ (r' = r ∨ (status r' = paid ∧ ∃ tm, tm ∈ ts ∧ target tm = k)).
Proof.
  revert r'. induction ts as [|tm ts IH]; intros r' Hr'; simpl in Hr'.
  - exists r'. split; [done|by left].
  - destruct (decide (target tm = k)) as [Heq|Hne].
    + rewrite <- Heq, fire_lookup_target in Hr'.
      destruct (foldr fire inv ts !! target tm) as [r1|] eqn:Hr1;
        simpl in Hr'; [|discriminate].
      injection Hr' as <-. rewrite Heq in Hr1.
      destruct (IH r1 Hr1) as (r & Hr & _).
      exists r. split; [done|]. right. split; [done|].
      exists tm. split; [left|done].
    + rewrite fire_lookup_ne in Hr' by done.
      destruct (IH r' Hr') as (r & Hr & [->|(Hp & tm' & Hin & Ht)]).
      * exists r. split; [done|by left].
      * exists r. split; [done|]. right. split; [done|].
        exists tm'. split; [by right|done].
Qed.

Lemma sound_boot (t0 : N) : sound (boot t0).
Proof.
  split; [apply well_timed_boot|]. intros k r. cbn [boot invoices].
  by rewrite lookup_empty.
Qed.

Lemma sound_handler (w : world) (req : request) : sound w → sound (handler w req).1.
Proof.
  intros [Hw Hs]. split; [by apply well_timed_handler|].
  unfold handler.
  destruct (String.eqb (method req) "POST");
    [|by destruct (String.eqb (method req) "GET")].
  unfold create_invoice.
  destruct (destructure "amount" (body req)), (destructure "contractId" (body req)),
    (destructure "milestoneId" (body req)); cbn [fst]; try done.
  destruct (negb _ || negb _ || negb _); cbn [fst invoices clock]; [done|].
  intros k r.
  destruct (decide (invoice_id_at (clock w) = k)) as [<-|Hne].
  - rewrite lookup_insert_eq. intros [= <-]. exists (clock w).
    split; [done|]. split; [lia|]. by intros [=].
  - rewrite lookup_insert_ne by done. apply Hs.
Qed.

Lemma sound_elapse (d : N) (w : world) : sound w → sound (elapse d w).
Proof.
  intros [Hw Hs]. split; [by apply well_timed_elapse|].
  unfold elapse, run_due. cbn [invoices clock timers].
  intros k r' (r & Hr & Hcase)%fire_all_origin.
  destruct (Hs k r Hr) as (t & -> & Ht & Hpaid).
  exists t. split; [done|]. split; [lia|].
  destruct Hcase as [->|(_ & tm & [Hdue Hin]%list_elem_of_filter & Htarget)].
  - intros Hp. specialize (Hpaid Hp). lia.
  - intros _. destruct (Hw tm Hin) as (t' & Ht' & Hd').
    rewrite Ht' in Htarget. apply invoice_id_at_inj in Htarget as ->.
    unfold is_due in Hdue. cbn in Hdue. lia.
Qed.

Lemma sound_run (es : list event) (w : world) : sound w → sound (run w es).
Proof.
  unfold run. revert w. induction es as [|[d|req] es IH]; intros w Hw; simpl;
    [done|apply IH, sound_elapse, Hw|apply IH, sound_handler, Hw].
Qed.

(** X2. On a server that started with an empty store, [paid] is final: once
    a status request for an identifier has been answered [paid], every
    later status request for it is answered [paid] too, whatever requests
    (creations included) and however much time came in between. *)
Theorem paid_is_final (t0 : N) (history : list event) (id : string)
    (es : list event) :
  let w := run (boot t0) history in
  (handler w (get_status id)).2 = Sent 200 paid_payload →
  (handler (run w es) (get_status id)).2 = Sent 200 paid_payload.
Proof.
  intros w (Hid & [(r & Hr & Hp)|(_ & _ & [=])])%poll_200_inv.
  subst w. set (w := run (boot t0) history) in *.
  assert (status r = paid) as Hpaid
    by (destruct (status r); [by injection Hp|done]).
  destruct (sound_run history (boot t0) (sound_boot t0)) as [_ Hs].
  fold w in Hs. destruct (Hs id r Hr) as (t & -> & _ & Hold). specialize (Hold Hpaid).
  assert (Hset : settling t w) by (exists r; split; [done|by left]).
  apply (settling_run t es) in Hset.
  apply settling_paid in Hset as (r' & Hr' & Hp').
  - erewrite poll_own by exact Hr'. by rewrite Hp'.
  - rewrite clock_run. lia.
Qed.

Lemma paid_is_final_witness :
  let history := [Http (post (invoice_body (Num (Finite 100)) (Str "c1") (Str "m1")));
                  Elapse 10000] in
  let w := run (boot 5) history in
  (handler w (get_status "MOCK-5")).2 = Sent 200 paid_payload
  ∧ (handler (run w [Http (post (invoice_body (Num (Finite 7)) (Str "c2") (Str "m2")));
                     Elapse 1])
        (get_status "MOCK-5")).2 = Sent 200 paid_payload.
Proof.
  intros history w.
  assert (H : (handler w (get_status "MOCK-5")).2 = Sent 200 paid_payload)
    by (vm_compute; reflexivity).
  split; [exact H|].
  exact (paid_is_final 5 history "MOCK-5" _ H).
Defined.

(** X3. A POST request is answered in exactly three ways: the handler
    throws exactly when the parsed body is [null] or [undefined] (the
    destructuring fails before any check); otherwise the answer is 400 or
    200; and unless the answer is 200 the invoices, the timers and the
    clock are as before. *)
Theorem post_outcomes (w : world) (b : value) :
  ((handler w (post b)).2 = Threw ↔ b = Null ∨ b = Undefined)
  ∧ ((handler w (post b)).2 = Threw
     ∨ (handler w (post b)).2
       = Sent 400 (error_payload "amount, contractId and milestoneId are required")
     ∨ ∃ p, (handler w (post b)).2 = Sent 200 p)
  ∧ ((∀ p, (handler w (post b)).2 ≠ Sent 200 p) → (handler w (post b)).1 = w).
Proof.
  rewrite handler_post. unfold create_invoice.
  destruct b as [| |bb|n|str|items|fields]; cbn [destructure].
  1,2: by (split; [split; [auto|done]|]; split; [left|]).
  all: destruct (negb _ || negb _ || negb _); cbn [fst snd].
  all: split; [split; [intros [=]|intros [[=]|[=]]]|].
  all: split; [right; first [by left|right; by eexists]|].
  all: first [done|intros H; by destruct (H _ eq_refl)].
Qed.

(** X4. Two accepted creation requests separated by at least one
    millisecond get different identifiers, and the record of the first is
    still in the store after the second. *)
Theorem later_invoice_gets_new_id (w : world) (a c m a' c' m' : value)
    (es : list event) :
  truthy a = true → truthy c = true → truthy m = true →
  truthy a' = true → truthy c' = true → truthy m' = true →
  (0 < elapsed es)%N →
  let first := handler w (post (invoice_body a c m)) in
  let between := run first.1 es in
  let second := handler between (post (invoice_body a' c' m')) in
  ∃ id1 id2,
    first.2 = Sent 200 (Obj [("invoice_id", Str id1); ("qr_url", Str (qr_url_of id1))])
    ∧ second.2 = Sent 200 (Obj [("invoice_id", Str id2); ("qr_url", Str (qr_url_of id2))])
    ∧ id1 ≠ id2
    ∧ is_Some (invoices second.1 !! id1)
    ∧ is_Some (invoices second.1 !! id2).
Proof.
  intros Ta Tc Tm Ta' Tc' Tm' Hes first between second.
  exists (invoice_id_at (clock w)), (invoice_id_at (clock between)).
  assert (Hclock : clock between = (clock w + elapsed es)%N).
  { subst between. rewrite clock_run. subst first. by rewrite clock_handler. }
  assert (Hne : invoice_id_at (clock w) ≠ invoice_id_at (clock between)).
  { apply distinct_clock_distinct_invoice_id. lia. }
  assert (H1 : is_Some (invoices between !! invoice_id_at (clock w))).
  { subst between. eapply lookup_run_keeps. subst first.
    rewrite handler_post, create_invoice_accepts by done.
    cbn [fst invoices]. apply lookup_insert_eq. }
  subst second. rewrite !handler_post.
  subst first. rewrite handler_post in *.
  rewrite (create_invoice_accepts w) in * by done.
  rewrite (create_invoice_accepts between) by done. cbn [fst snd invoices].
  split; [done|]. split; [done|]. split; [done|]. split.
  - by rewrite lookup_insert_ne.
  - rewrite lookup_insert_eq. by eexists.
Qed.

Lemma later_invoice_gets_new_id_witness :
  let first := handler (boot 5) (post (invoice_body (Num (Finite 1)) (Str "c") (Str "m"))) in
  let second := handler (run first.1 [Elapse 1])
                        (post (invoice_body (Num (Finite 1)) (Str "c") (Str "m"))) in
  (0 < elapsed [Elapse 1])%N
  ∧ ∃ id1 id2,
      first.2 = Sent 200 (Obj [("invoice_id", Str id1); ("qr_url", Str (qr_url_of id1))])
      ∧ second.2 = Sent 200 (Obj [("invoice_id", Str id2); ("qr_url", Str (qr_url_of id2))])
      ∧ id1 ≠ id2
      ∧ is_Some (invoices second.1 !! id1)
      ∧ is_Some (invoices second.1 !! id2).
Proof.
  intros first second.
  assert (H : (0 < elapsed [Elapse 1])%N) by reflexivity.
  split; [exact H|].
  exact (later_invoice_gets_new_id (boot 5)
           (Num (Finite 1)) (Str "c") (Str "m") (Num (Finite 1)) (Str "c") (Str "m")
           [Elapse 1] eq_refl eq_refl eq_refl eq_refl eq_refl eq_refl H).
Defined.

(** X5. The status code of a GET request with a single [invoice_id] is
    decided as follows: 400 exactly when the identifier is empty; 404
    exactly when it is non-empty, has no record and is not the name of a
    member every object inherits; 200 in every other case.  The request
    never changes the store. *)
Theorem poll_status_codes (w : world) (id : string) (b : value) :
  let req := {| method := "GET"; body := b; invoice_id := QOne id |} in
  ((handler w req).2 = Sent 400 (error_payload "invoice_id query param is required")
   ↔ id = "")
  ∧ ((handler w req).2 = Sent 404 (error_payload "invoice not found")
     ↔ id ≠ "" ∧ invoices w !! id = None ∧ id ∉ object_prototype_keys)
  ∧ ((∃ p, (handler w req).2 = Sent 200 p)
     ↔ id ≠ "" ∧ (is_Some (invoices w !! id) ∨ id ∈ object_prototype_keys))
  ∧ (handler w req).1 = w.
Proof.
  unfold handler, poll_invoice, get. cbn.
  destruct (String.eqb_spec id "") as [->|Hid].
  { split; [done|]. split; [split; [intros [=]|by intros [? _]]|].
    split; [|done]. split; [intros [p [=]]|by intros [? _]]. }
  destruct (invoices w !! id) as [r|] eqn:Hr.
  { split; [split; [intros [=]|done]|].
    split; [split; [intros [=]|intros (_ & [=] & _)]|].
    split; [|done]. split; [intros _; split; [done|left; by eexists]|].
    intros _. by eexists. }
  case_bool_decide as Hk.
  - split; [split; [intros [=]|done]|].
    split; [split; [intros [=]|by intros (_ & _ & ?)]|].
    split; [|done]. split; [intros _; split; [done|by right]|].
    intros _. by eexists.
  - split; [split; [intros [=]|done]|].
    split; [done|]. split; [|done].
    split; [intros [p [=]]|]. intros [_ [[x [=]]|Hin]]. done.
Qed.

Lemma invoice_pending_before_delay_witness :
  let history := [Http (post (invoice_body (Num (Finite 9)) (Str "c0") (Str "m0")));
                  Elapse 9000] in
  let w := run (boot 5) history in
  let created := handler w (post (invoice_body (Num (Finite 100)) (Str "c1") (Str "m1"))) in
  let es := [Elapse 4000; Http (get_status "MOCK-5"); Elapse 5999] in
  (elapsed es < delay)%N
  ∧ (handler (run created.1 es) (get_status "MOCK-9005")).2
    = Sent 200 (Obj [("status", Str "pending")]).
Proof.
  intros history w created es.
  assert (H : (elapsed es < delay)%N) by reflexivity.
  split; [exact H|].
  exact (invoice_pending_before_delay 5 history (Num (Finite 100)) (Str "c1")
           (Str "m1") es eq_refl eq_refl eq_refl H).
Defined.

End QPayMore.

(** * More on the hire workflow *)

Module HireMore.
Import Store Hire TableFacts HireFacts.

Lemma single_Some {A} (rows : list A) (r : A) : single rows = Some r → rows = [r].
Proof. destruct rows as [|? [|? ?]]; cbn; congruence. Qed.

Lemma elem_of_select_where {A} (keep : A → bool) (rows : list A) (r : A) :
  r ∈ select_where keep rows ↔ r ∈ rows ∧ keep r = true.
Proof. unfold select_where. rewrite !list_elem_of_In. apply filter_In. Qed.

Lemma elem_of_rev {A} (rows : list A) (r : A) : r ∈ rev rows ↔ r ∈ rows.
Proof. rewrite !list_elem_of_In. symmetry. apply in_rev. Qed.

Lemma single_select {A} (keep : A → bool) (rows : list A) (r : A) :
  single (select_where keep rows) = Some r → r ∈ rows ∧ keep r = true.
Proof.
  intros H%single_Some. apply elem_of_select_where. rewrite H. by left.
Qed.

Lemma update_where_keeps {A} (keep : A → bool) (f : A → A) (rows : list A) (r : A) :
  r ∈ rows → keep r = false → r ∈ update_where keep f rows.
Proof.
  intros Hin Hk. apply elem_of_update_where. exists r. by rewrite Hk.
Qed.

Lemma length_update_where {A} (keep : A → bool) (f : A → A) (rows : list A) :
  length (update_where keep f rows) = length rows.
Proof. unfold update_where. apply length_map. Qed.

(** Who gets a list of proposals from [fetchData]. *)
Lemma fetchData_listed (r : read_replies) (user : option string) (route_id : string)
    (d : db) (p : Proposal) :
  p ∈ proposals (fetchData r user route_id d initial) →
  ∃ uid prof proj row,
    user = Some uid
    ∧ prof ∈ profiles d ∧ profile_id prof = uid ∧ profile_role prof = "client"
    ∧ proj ∈ projects d ∧ project_id proj = route_id ∧ project_client proj = uid
    ∧ row ∈ Store.proposals d ∧ proposal_project row = route_id
    ∧ p = view_of_proposal row.
Proof.
  unfold fetchData. destruct user as [uid|]; [|by intros ?%elem_of_nil].
  destruct (on_profile r); [by intros ?%elem_of_nil|].
  destruct (single (select_where _ (profiles d))) as [prof|] eqn:Hprof;
    [|by intros ?%elem_of_nil].
  destruct (on_project_read r); [by intros ?%elem_of_nil|].
  destruct (single (select_where _ (projects d))) as [proj|] eqn:Hproj;
    [|by intros ?%elem_of_nil].
  cbn [proposals].
  destruct (String.eqb (profile_role prof) "client"
            && String.eqb (project_client proj) uid) eqn:Howner;
    [|by intros ?%elem_of_nil].
  destruct (on_proposals r); [by intros ?%elem_of_nil|].
  intros (row & -> & [Hrow Hof]%elem_of_rev%elem_of_select_where)%list_elem_of_fmap.
  apply single_select in Hprof as [Hprof Hpid], Hproj as [Hproj Hprid].
  apply andb_true_iff in Howner as [Hrole Hclient].
  apply eqb_true in Hpid, Hprid, Hrole, Hclient, Hof.
  exists uid, prof, proj, row. repeat split; done.
Qed.

(** What a Hire button on the screen tells about the page. *)
Lemma hire_offered_inv (pg : page) (p : Proposal) :
  hire_offered pg p = true →
  loading pg = false ∧ role pg = Some "client" ∧ is_Some (project pg)
  ∧ p ∈ proposals pg ∧ status p = "pending" ∧ actionLoading pg = None.
Proof.
  unfold hire_offered, render.
  destruct (loading pg); [done|].
  destruct (project pg) as [P|]; [|done].
  case_bool_decide as Hrole; cbn [negb]; [|done].
  intros (c & Hin & Hc)%existsb_exists.
  apply in_map_iff in Hin as (p0 & <- & Hp0). cbn in Hc.
  apply andb_true_iff in Hc as [[Hp Hst]%andb_true_iff Hdis].
  apply bool_decide_eq_true in Hp. subst p0.
  apply eqb_true in Hst. apply negb_true_iff, bool_decide_eq_false in Hdis.
  split; [done|]. split; [done|]. split; [by eexists|].
  split; [by apply list_elem_of_In|]. split; [done|].
  destruct (actionLoading pg); [|done]. by destruct Hdis.
Qed.

(** X7. A review page that has just loaded lists proposals only to the
    signed-in user whose profile has role [client] and who is the
    [client_id] of the project of the route, and every proposal it lists is
    a row of that project. *)
Theorem proposals_listed_only_for_owner (r : read_replies) (user : option string)
    (route_id : string) (d : db) (p : Proposal) :
  p ∈ proposals (fetchData r user route_id d initial) →
  ∃ uid prof proj row,
    user = Some uid
    ∧ prof ∈ profiles d ∧ profile_id prof = uid ∧ profile_role prof = "client"
    ∧ proj ∈ projects d ∧ project_id proj = route_id ∧ project_client proj = uid
    ∧ row ∈ Store.proposals d ∧ proposal_project row = route_id
    ∧ p = view_of_proposal row.
Proof. apply fetchData_listed. Qed.

Lemma proposals_listed_only_for_owner_witness :
  view_of_proposal Sample.bid_carol ∈ proposals Sample.review
  ∧ ∃ uid prof proj row,
      Some Sample.alice = Some uid
      ∧ prof ∈ profiles Sample.market ∧ profile_id prof = uid
      ∧ profile_role prof = "client"
      ∧ proj ∈ projects Sample.market ∧ project_id proj = "P1"
      ∧ project_client proj = uid
      ∧ row ∈ Store.proposals Sample.market ∧ proposal_project row = "P1"
      ∧ view_of_proposal Sample.bid_carol = view_of_proposal row.
Proof.
  assert (H : view_of_proposal Sample.bid_carol ∈ proposals Sample.review)
    by apply list_elem_of_here.
  split; [exact H|].
  exact (proposals_listed_only_for_owner Sample.reads_ok (Some Sample.alice) "P1"
           Sample.market _ H).
Defined.

(** X8. On a review page that has just loaded, a Hire button that can be
    pressed is there only for the owner of the project (role [client], id
    equal to the project's [client_id]) and only on a proposal of that
    project whose status is [pending]. *)
Theorem hire_button_only_for_owner (r : read_replies) (user : option string)
    (route_id : string) (d : db) (p : Proposal) :
  hire_offered (fetchData r user route_id d initial) p = true →
  status p = "pending"
  ∧ ∃ uid prof proj row,
      user = Some uid
      ∧ prof ∈ profiles d ∧ profile_id prof = uid ∧ profile_role prof = "client"
      ∧ proj ∈ projects d ∧ project_id proj = route_id ∧ project_client proj = uid
      ∧ row ∈ Store.proposals d ∧ proposal_project row = route_id
      ∧ proposal_status row = "pending" ∧ p = view_of_proposal row.
Proof.
  intros (_ & _ & _ & Hin & Hst & _)%hire_offered_inv. split; [done|].
  apply fetchData_listed in Hin
    as (uid & prof & proj & row & ? & ? & ? & ? & ? & ? & ? & ? & ? & ->).
  exists uid, prof, proj, row. repeat split; done.
Qed.

Lemma hire_button_only_for_owner_witness :
  hire_offered Sample.review (view_of_proposal Sample.bid_bob) = true
  ∧ status (view_of_proposal Sample.bid_bob) = "pending".
Proof.
  assert (H : hire_offered Sample.review (view_of_proposal Sample.bid_bob) = true)
    by reflexivity.
  split; [exact H|].
  exact (proj1 (hire_button_only_for_owner Sample.reads_ok (Some Sample.alice) "P1"
                  Sample.market _ H)).
Defined.

(** X9. After a hire that reported success the page offers no Hire button
    any more: every listed proposal is shown as accepted or rejected. *)
Theorem no_hire_button_after_success (e : hire_env) (proposal : Proposal)
    (pg : page) (d : db) (p : Proposal) :
  is_Some (project pg) → on_insert e = None → on_project_update e = None →
  hire_offered (handleHire e proposal pg d).1 p = false.
Proof.
  intros [P HP] Hi Hu. unfold handleHire. rewrite HP, Hi, Hu. cbn [fst].
  apply not_true_is_false.
  intros (_ & _ & _ & Hin & Hst & _)%hire_offered_inv.
  cbn [proposals] in Hin.
  apply list_elem_of_fmap in Hin as (p0 & -> & _).
  unfold relabel in Hst. cbn in Hst.
  by destruct (String.eqb (id p0) (id proposal)).
Qed.

Lemma no_hire_button_after_success_witness :
  let chosen := view_of_proposal Sample.bid_bob in
  (is_Some (project Sample.review)
   ∧ on_insert (Sample.writes_ok "c1") = None
   ∧ on_project_update (Sample.writes_ok "c1") = None)
  ∧ hire_offered Sample.review chosen = true
  ∧ hire_offered (handleHire (Sample.writes_ok "c1") chosen Sample.review
                             Sample.market).1 chosen = false.
Proof.
  intros chosen.
  assert (H : is_Some (project Sample.review)) by (by eexists).
  split; [by repeat split|]. split; [reflexivity|].
  exact (no_hire_button_after_success (Sample.writes_ok "c1") chosen Sample.review
           Sample.market chosen H eq_refl eq_refl).
Defined.

(** The store left by [handleHire], by cases. *)
Lemma handleHire_store (e : hire_env) (proposal : Proposal) (pg : page) (d : db) :
  (handleHire e proposal pg d).2
  = match project pg, on_insert e, on_project_update e with
    | Some P, None, None =>
        attempt (on_reject e) (reject_others P proposal)
          (attempt (on_accept e) (accept_chosen proposal)
             (set_projects
                (update_where (λ p, String.eqb (project_id p) (pid P))
                              (with_project_status "in_progress") (projects d))
                (set_contracts (contracts d ++ [new_contract e P proposal]) d)))
    | Some P, None, Some _ =>
        set_contracts (contracts d ++ [new_contract e P proposal]) d
    | _, _, _ => d
    end.
Proof.
  unfold handleHire. destruct (project pg); [|done].
  destruct (on_insert e); [done|]. by destruct (on_project_update e).
Qed.

(** X10. What [handleHire] never touches: the profiles and the milestones;
    the number of project rows and of proposal rows; the contracts already
    recorded (at most one is added, at the end); the rows of other
    projects; and the proposals of other projects, the chosen one apart. *)
Theorem handleHire_frame (e : hire_env) (proposal : Proposal) (pg : page) (d : db) :
  let d' := (handleHire e proposal pg d).2 in
  profiles d' = profiles d
  ∧ milestones d' = milestones d
  ∧ length (projects d') = length (projects d)
  ∧ length (Store.proposals d') = length (Store.proposals d)
  ∧ (∃ added, contracts d' = contracts d ++ added ∧ (length added ≤ 1)%nat)
  ∧ (∀ row, row ∈ projects d →
            (∀ P, project pg = Some P → project_id row ≠ pid P) →
            row ∈ projects d')
  ∧ (∀ row, row ∈ Store.proposals d → proposal_id row ≠ id proposal →
            (∀ P, project pg = Some P → proposal_project row ≠ pid P) →
            row ∈ Store.proposals d').
Proof.
  intros d'. subst d'. rewrite handleHire_store.
  destruct (project pg) as [P|], (on_insert e), (on_project_update e),
    (on_accept e), (on_reject e);
    cbn [attempt reject_others accept_chosen set_proposals set_projects
         set_contracts profiles milestones projects Store.proposals contracts].
  all: split; [reflexivity|]; split; [reflexivity|].
  all: split; [by rewrite ?length_update_where|].
  all: split; [by rewrite ?length_update_where|].
  all: split;
    [first [exists []; rewrite app_nil_r; split; [reflexivity|cbn; lia]
           |eexists; split; [reflexivity|cbn; lia]]|].
  all: split;
    [intros row Hin Hne;
     first [exact Hin
           |apply update_where_keeps; [exact Hin|];
            apply eqb_false; by apply Hne]|].
  all: intros row Hin Hid Hproj.
  all: assert (Hk1 : String.eqb (proposal_id row) (id proposal) = false)
         by (by apply eqb_false).
  all: first
    [exact Hin
    |apply update_where_keeps; [exact Hin|exact Hk1]
    |assert (Hk2 : negb (String.eqb (proposal_id row) (id proposal))
                   && String.eqb (proposal_project row) (pid P) = false)
       by (apply andb_false_iff; right; apply eqb_false; by apply Hproj);
     first [apply update_where_keeps; [exact Hin|exact Hk2]
           |apply update_where_keeps;
              [apply update_where_keeps; [exact Hin|exact Hk1]|exact Hk2]]].
Qed.



(** X12. Nothing takes back the contract of a hire that stopped at the
    project update: the project rows are as before, the error of the store
    is shown, and a second try whose insert goes through leaves two
    contracts for the same project and proposal. *)
Theorem retry_duplicates_contract (e1 e2 : hire_env) (proposal : Proposal)
    (pg : page) (d : db) (P : Project) (err : string) :
  project pg = Some P →
  on_insert e1 = None → on_project_update e1 = Some err → on_insert e2 = None →
  let first := handleHire e1 proposal pg d in
  let second := handleHire e2 proposal first.1 first.2 in
  message first.1 = Some err
  ∧ projects first.2 = projects d
  ∧ Store.proposals first.2 = Store.proposals d
  ∧ contracts second.2
    = contracts d ++ [new_contract e1 P proposal; new_contract e2 P proposal].
Proof.
  intros HP Hi1 Hu1 Hi2 first second.
  assert (Hfirst : first = (stopped err pg,
                            set_contracts (contracts d ++ [new_contract e1 P proposal]) d)).
  { subst first. unfold handleHire. by rewrite HP, Hi1, Hu1. }
  subst second. rewrite Hfirst. cbn [fst snd].
  split; [done|]. split; [done|]. split; [done|].
  rewrite handleHire_store. cbn [project stopped]. rewrite HP, Hi2.
  destruct (on_project_update e2).
  - cbn [contracts set_contracts]. by rewrite <- app_assoc.
  - rewrite !contracts_attempt by done. cbn [contracts set_projects set_contracts].
    by rewrite <- app_assoc.
Qed.

Lemma retry_duplicates_contract_witness :
  let chosen := view_of_proposal Sample.bid_bob in
  (project Sample.review = Some (view_of_project Sample.job)
   ∧ on_insert Sample.project_update_fails = None
   ∧ on_project_update Sample.project_update_fails = Some "Failed to fetch"
   ∧ on_insert (Sample.writes_ok "c2") = None)
  ∧ length (contracts Sample.second_try.2) = 2.
Proof.
  intros chosen.
  split; [by repeat split|].
  destruct (retry_duplicates_contract Sample.project_update_fails (Sample.writes_ok "c2")
              chosen Sample.review Sample.market _ _ eq_refl eq_refl eq_refl eq_refl)
    as (_ & _ & _ & H).
  exact (f_equal length H).
Defined.

End HireMore.

(** * More on the contract dashboard *)

Module DashboardMore.
Import Store Dashboard TableFacts DashboardFacts.

Lemma or_default_nonempty (msg fallback : string) :
  fallback ≠ "" → or_default msg fallback ≠ "".
Proof.
  intros Hf. unfold or_default.
  destruct (String.eqb_spec msg ""); done.
Qed.

Lemma fetch_error_nonempty (r : read_replies) (route_id : string) (d : db)
    (pg : page) (s : string) :
  error (fetchContractAndMilestones r route_id d pg) = Some s → s ≠ "".
Proof.
  unfold fetchContractAndMilestones.
  destruct (read_single _ _); [|destruct (on_milestones r)]; cbn [error];
    intros [= <-]; by apply or_default_nonempty.
Qed.

(** When a reload ends without an error. *)
Lemma fetch_error_none (r : read_replies) (route_id : string) (d : db) (pg : page) :
  error (fetchContractAndMilestones r route_id d pg) = None
  ↔ on_contract r = None
    ∧ is_Some (single (select_where (λ c, String.eqb (contract_id c) route_id)
                                    (contracts d)))
    ∧ on_milestones r = None.
Proof.
  unfold fetchContractAndMilestones, read_single.
  destruct (on_contract r); [split; [done|by intros [? _]]|].
  destruct (single _) as [c|]; [|split; [done|by intros (_ & [? ?] & _)]].
  destruct (on_milestones r); cbn [error].
  - split; [done|by intros (_ & _ & ?)].
  - split; [|done]. intros _. split; [done|]. split; [by eexists|done].
Qed.

(** X13. [updateMilestoneStatus] ends without an error message exactly when
    the write went through, the reload found the contract of the route and
    both reads of the reload went through; and an error message, when there
    is one, is never empty, even if the store sends an empty text. *)
Theorem update_error_shown (e : update_env) (route_id mid st : string)
    (pg : page) (d : db) :
  let pg' := (updateMilestoneStatus e route_id mid st pg d).1 in
  (error pg' = None
   ↔ on_update e = None
     ∧ on_contract (on_reload e) = None
     ∧ is_Some (single (select_where (λ c, String.eqb (contract_id c) route_id)
                                     (contracts d)))
     ∧ on_milestones (on_reload e) = None)
  ∧ (∀ s, error pg' = Some s → s ≠ "")
  ∧ actionLoading pg' = false.
Proof.
  intros pg'. subst pg'. unfold updateMilestoneStatus.
  destruct (on_update e) as [err|]; cbn [fst error actionLoading finished].
  - split; [split; [done|by intros [? _]]|]. split; [|done].
    intros s [= <-]. by apply or_default_nonempty.
  - split; [|split; [apply fetch_error_nonempty|done]].
    rewrite fetch_error_none. cbn [contracts set_milestones]. tauto.
Qed.

(** X14. [updateMilestoneStatus] writes to one milestone only: profiles,
    projects, proposals and contracts are untouched, no milestone row is
    added or removed, rows with another id are unchanged, and the row it
    rewrites keeps its id, contract, title and amount. *)
Theorem update_frame (e : update_env) (route_id mid st : string) (pg : page) (d : db) :
  let d' := (updateMilestoneStatus e route_id mid st pg d).2 in
  profiles d' = profiles d ∧ projects d' = projects d
  ∧ proposals d' = proposals d ∧ contracts d' = contracts d
  ∧ length (Store.milestones d') = length (Store.milestones d)
  ∧ (∀ row, row ∈ Store.milestones d → milestone_id row ≠ mid →
            row ∈ Store.milestones d')
  ∧ (∀ row', row' ∈ Store.milestones d' →
       ∃ row, row ∈ Store.milestones d
              ∧ milestone_id row' = milestone_id row
              ∧ milestone_contract row' = milestone_contract row
              ∧ milestone_title row' = milestone_title row
              ∧ milestone_amount row' = milestone_amount row
              ∧ (milestone_id row ≠ mid → row' = row)).
Proof.
  intros d'. subst d'. rewrite updateMilestoneStatus_store.
  destruct (on_update e).
  { repeat split; try done. intros row' Hin. exists row'. by repeat split. }
  cbn [profiles projects proposals contracts Store.milestones set_milestones].
  split; [done|]. split; [done|]. split; [done|]. split; [done|].
  split; [unfold update_where; apply length_map|]. split.
  - intros row Hin Hne. apply elem_of_update_where. exists row.
    apply eqb_false in Hne. by rewrite Hne.
  - intros row' (row & Hin & ->)%elem_of_update_where. exists row.
    destruct (String.eqb (milestone_id row) mid) eqn:Hid; cbn.
    + apply eqb_true in Hid. by repeat split.
    + by repeat split.
Qed.

(** X15. Read your writes.  When the write and the reload go through, the
    page that comes back holds exactly the milestones the store now has for
    the contract of the route, and every one of them with the updated id
    shows the new status and the new time stamp. *)
Theorem update_then_reload_shows_new_status (e : update_env)
    (route_id mid st : string) (pg : page) (d : db) (c : Store.contract) :
  on_update e = None →
  on_contract (on_reload e) = None → on_milestones (on_reload e) = None →
  single (select_where (λ c, String.eqb (contract_id c) route_id) (contracts d))
  = Some c →
  let after := updateMilestoneStatus e route_id mid st pg d in
  contract after.1 = Some c
  ∧ milestones after.1
    = select_where (λ m, String.eqb (milestone_contract m) route_id)
                   (Store.milestones after.2)
  ∧ (∀ m, m ∈ milestones after.1 → milestone_id m = mid →
          milestone_status m = st ∧ updated_at m = stamp e)
  ∧ error after.1 = None ∧ loading after.1 = false
  ∧ actionLoading after.1 = false.
Proof.
  intros Hu Hc Hm Hsingle after. subst after.
  unfold updateMilestoneStatus. rewrite Hu. cbn [fst snd].
  unfold fetchContractAndMilestones, read_single. rewrite Hc, Hm.
  cbn [contracts set_milestones]. rewrite Hsingle.
  cbn [finished contract milestones error loading actionLoading Store.milestones].
  repeat split; try done.
  - apply list_elem_of_In, filter_In in H as [Hin _].
    apply list_elem_of_In, elem_of_update_where in Hin as (row & _ & ->).
    destruct (String.eqb (milestone_id row) mid) eqn:Hid; [done|].
    apply eqb_false in Hid. done.
  - apply list_elem_of_In, filter_In in H as [Hin _].
    apply list_elem_of_In, elem_of_update_where in Hin as (row & _ & ->).
    destruct (String.eqb (milestone_id row) mid) eqn:Hid; [done|].
    apply eqb_false in Hid. done.
Qed.

Lemma update_then_reload_shows_new_status_witness :
  let after := updateMilestoneStatus Sample.update_ok "c1" "m1" "funded" Sample.tab
                 (Sample.escrow "pending") in
  (on_update Sample.update_ok = None
   ∧ on_contract (on_reload Sample.update_ok) = None
   ∧ on_milestones (on_reload Sample.update_ok) = None
   ∧ single (select_where (λ c, String.eqb (contract_id c) "c1")
                          (contracts (Sample.escrow "pending"))) = Some Sample.deal)
  ∧ milestones after.1
    = select_where (λ m, String.eqb (milestone_contract m) "c1")
                   (Store.milestones after.2).
Proof.
  intros after. split; [by repeat split|].
  exact (proj1 (proj2 (update_then_reload_shows_new_status Sample.update_ok "c1" "m1"
                         "funded" Sample.tab (Sample.escrow "pending") Sample.deal
                         eq_refl eq_refl eq_refl eq_refl))).
Defined.

(** X16. A write that went through is not undone by a reload that fails:
    the store holds the new status, while the page keeps the contract and
    the milestone list it had, now stale, next to a non-empty error
    message. *)
Theorem reload_failure_leaves_stale_page (e : update_env)
    (route_id mid st : string) (pg : page) (d : db) (err : string) :
  on_update e = None → on_contract (on_reload e) = Some err →
  let after := updateMilestoneStatus e route_id mid st pg d in
  stored_status after.2 mid = (λ _, st) <$> stored_status d mid
  ∧ contract after.1 = contract pg
  ∧ milestones after.1 = milestones pg
  ∧ ∃ s, error after.1 = Some s ∧ s ≠ "".
Proof.
  intros Hu Hc after. subst after.
  unfold updateMilestoneStatus. rewrite Hu. cbn [fst snd].
  split; [apply stored_status_updated|].
  unfold fetchContractAndMilestones, read_single. rewrite Hc.
  cbn [finished contract milestones error].
  split; [done|]. split; [done|]. eexists. split; [done|].
  by apply or_default_nonempty.
Qed.

Lemma reload_failure_leaves_stale_page_witness :
  let e := {| stamp := "2025-01-16T09:30:00.000Z"; on_update := None;
              on_reload := {| on_contract := Some ""; on_milestones := None |} |} in
  let after := updateMilestoneStatus e "c1" "m1" "funded" Sample.tab
                 (Sample.escrow "pending") in
  (on_update e = None ∧ on_contract (on_reload e) = Some "")
  ∧ stored_status after.2 "m1" = Some "funded"
  ∧ milestone_status <$> milestones after.1 = ["pending"]
  ∧ error after.1 = Some load_failed_text.
Proof.
  intros e after. split; [by split|].
  destruct (reload_failure_leaves_stale_page e "c1" "m1" "funded" Sample.tab
              (Sample.escrow "pending") "" eq_refl eq_refl)
    as (Hst & _ & Hms & _).
  split; [exact Hst|]. split; [|reflexivity].
  exact (f_equal (fmap milestone_status) Hms).
Defined.

(** X17. The lifecycle ends on the page: for a milestone the page shows
    with a status other than [pending], [funded] and [in_review] (so for a
    released one) there is no button, and no press changes the page or the
    store. *)
Theorem no_button_outside_lifecycle (e : update_env) (route_id mid : string)
    (a : action) (pg : page) (d : db) :
  (∀ m, m ∈ milestones pg → milestone_id m = mid →
        milestone_status m ≠ "pending" ∧ milestone_status m ≠ "funded"
        ∧ milestone_status m ≠ "in_review") →
  can_press pg mid a = false ∧ press e route_id mid a pg d = (pg, d).
Proof.
  intros Hst.
  assert (Hno : can_press pg mid a = false).
  { apply not_true_is_false.
    intros (_ & _ & _ & m & Hm & Hid & Ha)%can_press_inv.
    destruct (Hst m Hm Hid) as (Hp & Hf & Hr).
    apply eqb_false in Hp, Hf, Hr. unfold buttons in Ha.
    rewrite Hp, Hf, Hr, !andb_false_r in Ha. cbn in Ha.
    by apply elem_of_nil in Ha. }
  split; [done|]. unfold press. by rewrite Hno.
Qed.

Lemma no_button_outside_lifecycle_witness :
  let pg := Sample.board Sample.alice (Sample.escrow "released") in
  (∀ m, m ∈ milestones pg → milestone_id m = "m1" →
        milestone_status m ≠ "pending" ∧ milestone_status m ≠ "funded"
        ∧ milestone_status m ≠ "in_review")
  ∧ press Sample.update_ok "c1" "m1" Fund pg (Sample.escrow "released")
    = (pg, Sample.escrow "released").
Proof.
  intros pg.
  assert (H : ∀ m, m ∈ milestones pg → milestone_id m = "m1" →
                   milestone_status m ≠ "pending" ∧ milestone_status m ≠ "funded"
                   ∧ milestone_status m ≠ "in_review").
  { intros m Hm _. apply list_elem_of_singleton in Hm as ->. by repeat split. }
  split; [exact H|].
  exact (proj2 (no_button_outside_lifecycle Sample.update_ok "c1" "m1" Fund pg
                  (Sample.escrow "released") H)).
Defined.

(** X18. No caller holds both sides of a milestone: a page never offers
    [Submit] together with [Fund] or [Release], on the same or on
    different milestones. *)
Theorem separation_of_duties (pg : page) (mid mid' : string) :
  can_press pg mid Submit = true →
  can_press pg mid' Fund = false ∧ can_press pg mid' Release = false.
Proof.
  intros (_ & _ & _ & m & _ & _ & Ha)%can_press_inv.
  apply buttons_actor, isFreelancer_true in Ha as (p & c & Hp & Hc & Hrole & _).
  assert (Hnot : ¬ client_of_contract pg).
  { intros (p' & c' & Hp' & _ & Hrole' & _). congruence. }
  split; apply not_true_is_false;
    intros (_ & _ & _ & m' & _ & _ & Ha')%can_press_inv;
    by apply buttons_actor, isClient_true in Ha'.
Qed.

Lemma separation_of_duties_witness :
  let pg := Sample.board Sample.bob (Sample.escrow "funded") in
  can_press pg "m1" Submit = true
  ∧ can_press pg "m1" Fund = false ∧ can_press pg "m1" Release = false.
Proof.
  intros pg.
  assert (H : can_press pg "m1" Submit = true) by reflexivity.
  split; [exact H|].
  exact (separation_of_duties pg "m1" "m1" H).
Defined.

(** X19. [fetchProfile] loads the profile of the signed-in user and of no
    one else: a loaded profile is a row of the store whose id is the id of
    the session's user, and a failed or ambiguous read leaves no profile,
    hence no button and no access. *)
Theorem fetchProfile_own_profile (r : reply) (uid : string) (d : db) (pg : page) :
  let pg' := fetchProfile r (Some uid) d pg in
  (∀ p, profile pg' = Some p → p ∈ profiles d ∧ profile_id p = uid ∧ r = None)
  ∧ (profile pg' = None → render pg' = Spinner ∨ render pg' = NoAccess)
  ∧ contract pg' = contract pg ∧ milestones pg' = milestones pg.
Proof.
  intros pg'. subst pg'. unfold fetchProfile. cbn [profile contract milestones].
  split; [|split; [|done]].
  - unfold read_single. destruct r; [done|].
    destruct (single _) as [row|] eqn:Hrow; [|done].
    intros p [= <-]. unfold single in Hrow.
    destruct (select_where _ _) as [|r0 [|? ?]] eqn:Hsel; try done.
    injection Hrow as ->.
    assert (In row (select_where (λ p, String.eqb (profile_id p) uid) (profiles d)))
      as Hin by (rewrite Hsel; by left).
    apply filter_In in Hin as [Hin Hid]. apply eqb_true in Hid.
    split; [by apply list_elem_of_In|done].
  - intros Hnone. unfold render, isClient, isFreelancer. cbn [profile loading contract].
    rewrite Hnone. destruct (loading pg); [by left|]. right.
    by destruct (contract pg).
Qed.

End DashboardMore.

(** * Registration *)

Module SignupFacts.
Import Store Signup TableFacts.

Lemma select_none {A} (keep : A → bool) (rows : list A) :
  (∀ r, r ∈ rows → keep r = false) → select_where keep rows = [].
Proof.
  intros H. unfold select_where. induction rows as [|r rows IH]; [done|].
  cbn. rewrite (H r) by left. apply IH. intros r' Hr'. apply H. by right.
Qed.

Lemma failed_error_nonempty (msg : string) (pg : page) (s : string) :
  error (failed msg pg) = Some s → s ≠ "".
Proof.
  unfold failed. cbn. destruct (String.eqb_spec msg ""); by intros [= <-].
Qed.

(** X20. A registration ends in one of two ways.  Either the browser is
    sent to the dashboard, which happens exactly when the two passwords are
    equal, the authentication service returned a user and the profile
    insert went through, and then no error is shown and one profile row
    with the user's id and the chosen role has been added.  Or the page
    stays, shows a non-empty error and no profile row has been added.  With
    different passwords nothing at all is sent. *)
Theorem signup_outcomes (e : signup_env) (pg : page) (b : backend) :
  pushed pg = None →
  let after := handleSignup e pg b in
  (pushed after.1 = Some "/dashboard"
   ↔ password pg = confirmPassword pg
     ∧ ∃ uid, on_sign_up e = SignUpUser uid ∧ on_profile_insert e = None)
  ∧ (pushed after.1 = Some "/dashboard" →
     error after.1 = None
     ∧ ∃ uid, on_sign_up e = SignUpUser uid
              ∧ profiles (data after.2)
                = profiles (data b)
                  ++ [{| profile_id := uid; profile_role := role_text (role pg) |}])
  ∧ (pushed after.1 = None →
     profiles (data after.2) = profiles (data b)
     ∧ ∃ s, error after.1 = Some s ∧ s ≠ "")
  ∧ (password pg ≠ confirmPassword pg → after.2 = b).
Proof.
  intros Hp after. subst after. unfold handleSignup.
  destruct (String.eqb_spec (password pg) (confirmPassword pg)) as [Heq|Hne];
    cbn [negb].
  2: { cbn [fst snd pushed error]. rewrite Hp.
       split; [split; [done|by intros [? _]]|]. split; [done|].
       split; [|done]. intros _. split; [done|]. by eexists. }
  destruct (on_sign_up e) as [msg| |uid]; cbn [fst snd].
  1: { cbn [failed pushed]. rewrite Hp.
       split; [split; [done|by intros [_ (? & [=] & _)]]|].
       split; [done|]. split; [|done]. intros _. split; [done|].
       eexists. split; [reflexivity|]. by destruct (String.eqb_spec msg ""). }
  1: { cbn [failed pushed]. rewrite Hp.
       split; [split; [done|by intros [_ (? & [=] & _)]]|].
       split; [done|]. split; [|done]. intros _. split; [done|].
       eexists. split; [reflexivity|]. done. }
  destruct (on_profile_insert e) as [err|]; cbn [fst snd].
  - cbn [failed pushed]. rewrite Hp.
    split; [split; [done|by intros [_ (? & _ & [=])]]|]. split; [done|].
    split; [|done]. intros _. split; [done|].
    eexists. split; [reflexivity|]. cbn. by destruct (String.eqb_spec err "").
  - cbn [pushed error data profiles].
    split; [split; [intros _; split; [done|by exists uid]|done]|].
    split; [intros _; split; [done|by exists uid]|]. split; [done|done].
Qed.

Lemma signup_outcomes_witness :
  let pg := {| email := "a@b.mn"; password := "s3cret"; confirmPassword := "s3cret";
               role := freelancer; loading := false; error := None;
               pushed := None |} in
  let e := {| on_sign_up := SignUpUser "u9"; on_profile_insert := None |} in
  let b := {| accounts := []; data := Sample.market |} in
  pushed pg = None
  ∧ pushed (handleSignup e pg b).1 = Some "/dashboard"
  ∧ error (handleSignup e pg b).1 = None.
Proof.
  intros pg e b. split; [reflexivity|].
  destruct (signup_outcomes e pg b eq_refl) as (Hiff & Hok & _).
  assert (H : pushed (handleSignup e pg b).1 = Some "/dashboard").
  { apply Hiff. split; [reflexivity|]. by exists "u9". }
  split; [exact H|]. exact (proj1 (Hok H)).
Defined.

(** X21. When the profile insert fails after the authentication service
    has created the user, the account stays without a profile row, and that
    user is then locked out: the contract dashboard loads no profile for
    the user and the review page no role. *)
Theorem failed_profile_insert_leaves_orphan (e : signup_env) (pg : page)
    (b : backend) (uid err : string) :
  password pg = confirmPassword pg →
  on_sign_up e = SignUpUser uid → on_profile_insert e = Some err →
  (∀ p, p ∈ profiles (data b) → profile_id p ≠ uid) →
  let after := handleSignup e pg b in
  (∃ a, a ∈ accounts after.2 ∧ account_id a = uid)
  ∧ (∀ p, p ∈ profiles (data after.2) → profile_id p ≠ uid)
  ∧ (∀ r pg0, Dashboard.profile
                (Dashboard.fetchProfile r (Some uid) (data after.2) pg0) = None)
  ∧ (∀ r route_id pg0,
       Hire.role (Hire.fetchData r (Some uid) route_id (data after.2) pg0) = None).
Proof.
  intros Heq Hs Hi Hfresh after. subst after. unfold handleSignup.
  apply String.eqb_eq in Heq. rewrite Heq, Hs, Hi. cbn [negb fst snd accounts data].
  assert (Hsel : select_where (λ p, String.eqb (profile_id p) uid) (profiles (data b))
                 = []).
  { apply select_none. intros p Hp. apply eqb_false. by apply Hfresh. }
  split; [eexists; split; [apply elem_of_app; right; by left|done]|].
  split; [done|]. split.
  - intros r pg0. unfold Dashboard.fetchProfile, Dashboard.read_single.
    cbn [Dashboard.profile]. rewrite Hsel. by destruct r.
  - intros r route_id pg0. unfold Hire.fetchData. rewrite Hsel.
    by destruct (Hire.on_profile r).
Qed.

Lemma failed_profile_insert_leaves_orphan_witness :
  let pg := {| email := "a@b.mn"; password := "s3cret"; confirmPassword := "s3cret";
               role := client; loading := false; error := None; pushed := None |} in
  let e := {| on_sign_up := SignUpUser "u9";
              on_profile_insert := Some "new row violates row-level security policy" |} in
  let b := {| accounts := []; data := Sample.market |} in
  (password pg = confirmPassword pg
   ∧ (∀ p, p ∈ profiles (data b) → profile_id p ≠ "u9"))
  ∧ ∃ a, a ∈ accounts (handleSignup e pg b).2 ∧ account_id a = "u9".
Proof.
  intros pg e b.
  assert (Hfresh : ∀ p, p ∈ profiles (data b) → profile_id p ≠ "u9").
  { intros p Hp. cbn in Hp. unfold Sample.people in Hp.
    repeat (apply elem_of_cons in Hp as [->|Hp]; [done|]).
    by apply elem_of_nil in Hp. }
  split; [by split|].
  exact (proj1 (failed_profile_insert_leaves_orphan e pg b "u9" _ eq_refl eq_refl
                  eq_refl Hfresh)).
Defined.

(** X22. After a registration that went through for a new user id, the
    other pages find the user: the contract dashboard loads the new profile
    and the review page the chosen role. *)
Theorem signup_then_profile_loads (e : signup_env) (pg : page) (b : backend)
    (uid : string) :
  password pg = confirmPassword pg →
  on_sign_up e = SignUpUser uid → on_profile_insert e = None →
  (∀ p, p ∈ profiles (data b) → profile_id p ≠ uid) →
  let after := handleSignup e pg b in
  (∀ pg0, Dashboard.profile
            (Dashboard.fetchProfile None (Some uid) (data after.2) pg0)
          = Some {| profile_id := uid; profile_role := role_text (role pg) |})
  ∧ (∀ r route_id pg0, Hire.on_profile r = None →
       Hire.role (Hire.fetchData r (Some uid) route_id (data after.2) pg0)
       = Some (role_text (role pg))).
Proof.
  intros Heq Hs Hi Hfresh after. subst after. unfold handleSignup.
  apply String.eqb_eq in Heq. rewrite Heq, Hs, Hi. cbn [negb fst snd data profiles].
  assert (Hsel : select_where (λ p, String.eqb (profile_id p) uid)
                   (profiles (data b)
                    ++ [{| profile_id := uid; profile_role := role_text (role pg) |}])
                 = [{| profile_id := uid; profile_role := role_text (role pg) |}]).
  { rewrite select_where_app, select_none.
    - cbn. by rewrite String.eqb_refl.
    - intros p Hp. apply eqb_false. by apply Hfresh. }
  split.
  - intros pg0. unfold Dashboard.fetchProfile, Dashboard.read_single.
    cbn [Dashboard.profile profiles]. by rewrite Hsel.
  - intros r route_id pg0 Hr. unfold Hire.fetchData. cbn [profiles projects].
    rewrite Hr, Hsel. cbn [single profile_role].
    destruct (Hire.on_project_read r); [done|].
    by destruct (single (select_where _ (projects (data b)))).
Qed.

Lemma signup_then_profile_loads_witness :
  let pg := {| email := "a@b.mn"; password := "s3cret"; confirmPassword := "s3cret";
               role := client; loading := false; error := None; pushed := None |} in
  let e := {| on_sign_up := SignUpUser "u9"; on_profile_insert := None |} in
  let b := {| accounts := []; data := Sample.market |} in
  (password pg = confirmPassword pg
   ∧ (∀ p, p ∈ profiles (data b) → profile_id p ≠ "u9"))
  ∧ Dashboard.profile
      (Dashboard.fetchProfile None (Some "u9") (data (handleSignup e pg b).2)
         Dashboard.initial)
    = Some {| profile_id := "u9"; profile_role := "client" |}.
Proof.
  intros pg e b.
  assert (Hfresh : ∀ p, p ∈ profiles (data b) → profile_id p ≠ "u9").
  { intros p Hp. cbn in Hp. unfold Sample.people in Hp.
    repeat (apply elem_of_cons in Hp as [->|Hp]; [done|]).
    by apply elem_of_nil in Hp. }
  split; [by split|].
  exact (proj1 (signup_then_profile_loads e pg b "u9" eq_refl eq_refl eq_refl Hfresh)
               Dashboard.initial).
Defined.

End SignupFacts.

(** * Posting jobs and submitting proposals *)

Module FormFacts.
Import Store TableFacts.

Lemma not_le_zero_positive (q : Q) : JsNum.le_zero (Js.Finite q) = false → (0 < q)%Q.
Proof.
  cbn. intros H. apply Qnot_le_lt. intros Hle.
  apply Qle_bool_iff in Hle. congruence.
Qed.

(** A number that passed [n <= 0] as false and reached a column is a
    positive finite number. *)
Lemma stored_number_positive (n m : Js.number) :
  JsNum.le_zero n = false → JsNum.to_json n = Some m →
  ∃ q, m = Js.Finite q ∧ (0 < q)%Q.
Proof.
  destruct n as [q| |]; cbn [JsNum.to_json]; try done.
  intros Hq [= <-]. exists q. split; [done|]. by apply not_le_zero_positive.
Qed.

(** X23. [handleSubmit] of the post-job page either leaves the store as it
    is and shows an error, or adds exactly one project row: its status is
    [open], its client is the signed-in user, its title is the non-empty
    title of the form, and its budget, when the column is not null, is a
    positive number.  This holds whatever [parseFloat] makes of the budget
    field. *)
Theorem posted_project_is_valid (parseFloat : string → Js.number)
    (e : PostJob.post_env) (pg : PostJob.page) (d : db) :
  let after := PostJob.handleSubmit parseFloat e pg d in
  (after.2 = d ∧ is_Some (PostJob.error after.1)
   ∧ PostJob.pushed after.1 = PostJob.pushed pg)
  ∨ (∃ uid row,
       PostJob.user e = Some uid ∧ PostJob.on_insert e = None
       ∧ after.2 = set_projects (projects d ++ [row]) d
       ∧ project_status row = "open" ∧ project_client row = uid
       ∧ project_title row = PostJob.title pg ∧ PostJob.title pg ≠ ""
       ∧ (∀ n, project_budget row = Some n → ∃ q, n = Js.Finite q ∧ (0 < q)%Q)
       ∧ PostJob.error after.1 = None
       ∧ PostJob.pushed after.1 = Some "/dashboard").
Proof.
  intros after. subst after. unfold PostJob.handleSubmit.
  destruct (String.eqb_spec (PostJob.title pg) "") as [Ht|Ht]; cbn [orb].
  { left. repeat split. by eexists. }
  destruct (String.eqb (PostJob.budget pg) ""); [left; repeat split; by eexists|].
  destruct (JsNum.isNaN _) eqn:Hnan; cbn [orb]; [left; repeat split; by eexists|].
  destruct (JsNum.le_zero _) eqn:Hle; [left; repeat split; by eexists|].
  destruct (PostJob.user e) as [uid|]; [|left; repeat split; by eexists].
  destruct (PostJob.on_insert e); [left; repeat split; by eexists|].
  right. exists uid, (PostJob.new_project parseFloat e uid pg).
  cbn [fst snd PostJob.error PostJob.pushed].
  repeat split; try done.
  intros n Hn. cbn in Hn. by eapply stored_number_positive.
Qed.

(** X24. [handleSubmitProposal] either leaves the store as it is and shows
    a message, or adds exactly one proposal row: its status is [pending],
    its project is the job the page has loaded, its freelancer is the
    signed-in user, and its proposed budget, when the column is not null, is
    a positive number; the form is then cleared.  This holds whatever
    [parseFloat] makes of the bid. *)
Theorem submitted_proposal_is_valid (parseFloat : string → Js.number)
    (e : JobDetails.submit_env) (pg : JobDetails.page) (d : db) :
  let after := JobDetails.handleSubmitProposal parseFloat e pg d in
  (after.2 = d ∧ is_Some (JobDetails.message after.1)
   ∧ JobDetails.bidAmount after.1 = JobDetails.bidAmount pg)
  ∨ (∃ j uid row,
       JobDetails.job pg = Some j ∧ JobDetails.user e = Some uid
       ∧ JobDetails.on_insert e = None
       ∧ after.2 = set_proposals (proposals d ++ [row]) d
       ∧ proposal_status row = "pending"
       ∧ proposal_project row = JobDetails.id j
       ∧ proposal_freelancer row = uid
       ∧ (∀ n, proposed_budget row = Some n → ∃ q, n = Js.Finite q ∧ (0 < q)%Q)
       ∧ JobDetails.message after.1 = Some JobDetails.sent_text
       ∧ JobDetails.bidAmount after.1 = ""
       ∧ JobDetails.coverLetter after.1 = "").
Proof.
  intros after. subst after. unfold JobDetails.handleSubmitProposal.
  destruct (String.eqb (JobDetails.bidAmount pg) ""); cbn [orb];
    [left; repeat split; by eexists|].
  destruct (JsNum.le_zero _) eqn:Hle; [left; repeat split; by eexists|].
  destruct (JobDetails.job pg) as [j|]; [|left; repeat split; by eexists].
  destruct (JobDetails.user e) as [uid|]; [|left; repeat split; by eexists].
  destruct (JobDetails.on_insert e); [left; repeat split; by eexists|].
  right. exists j, uid, (JobDetails.new_proposal parseFloat e j uid pg).
  cbn [fst snd JobDetails.message JobDetails.bidAmount JobDetails.coverLetter].
  repeat split; try done.
  intros n Hn. cbn in Hn. by eapply stored_number_positive.
Qed.

Lemma single_map {A B} (g : A → B) (rows : list A) :
  single (map g rows) = g <$> single rows.
Proof. by destruct rows as [|? [|? ?]]. Qed.

(** X26. The job page does not look at the status of the project: it loads
    the same job, and shows the proposal form to the same users, whether
    the project is open, in progress, completed or cancelled. *)
Theorem job_page_ignores_status (r : JobDetails.read_replies) (user : option string)
    (route_id : string) (d : db) (pg : JobDetails.page) (s : string) :
  let d' := set_projects
              (update_where (λ p, String.eqb (project_id p) route_id)
                            (with_project_status s) (projects d)) d in
  JobDetails.fetchJob r user route_id d' pg = JobDetails.fetchJob r user route_id d pg
  ∧ JobDetails.form_shown (JobDetails.fetchJob r user route_id d' pg)
    = JobDetails.form_shown (JobDetails.fetchJob r user route_id d pg).
Proof.
  intros d'. subst d'.
  assert (H : JobDetails.fetchJob r user route_id
                (set_projects
                   (update_where (λ p, String.eqb (project_id p) route_id)
                                 (with_project_status s) (projects d)) d) pg
              = JobDetails.fetchJob r user route_id d pg).
  { unfold JobDetails.fetchJob. cbn [projects profiles set_projects].
    rewrite (select_update_where (λ p, String.eqb (project_id p) route_id)) by done.
    unfold update_where. rewrite single_map.
    destruct (single (select_where _ (projects d))) as [row|]; [|done].
    cbn [fmap option_fmap option_map].
    assert (JobDetails.view_of_job
              (if String.eqb (project_id row) route_id
               then with_project_status s row else row)
            = JobDetails.view_of_job row) as ->; [|done].
    by destruct (String.eqb (project_id row) route_id). }
  split; [exact H|]. by rewrite H.
Qed.

End FormFacts.

(** * Job lists *)

Module ListFacts.
Import Store TableFacts.
Import HireMore (elem_of_rev).

Lemma elem_of_select {A} (keep : A → bool) (rows : list A) (r : A) :
  r ∈ select_where keep rows ↔ r ∈ rows ∧ keep r = true.
Proof. unfold select_where. rewrite !list_elem_of_In. apply filter_In. Qed.

Lemma single_elem {A} (keep : A → bool) (rows : list A) (r : A) :
  single (select_where keep rows) = Some r → r ∈ rows ∧ keep r = true.
Proof.
  destruct (select_where keep rows) as [|r0 [|? ?]] eqn:Hsel; cbn; try done.
  intros [= ->]. apply elem_of_select. rewrite Hsel. by left.
Qed.

(** A key that identifies its row picks that row alone. *)
Lemma select_unique {A} (key : A → string) (rows : list A) (r : A) :
  NoDup (map key rows) → r ∈ rows →
  select_where (λ x, String.eqb (key x) (key r)) rows = [r].
Proof.
  unfold select_where. induction rows as [|x rows IH]; intros Hnd Hin;
    [by apply elem_of_nil in Hin|].
  cbn in Hnd. apply NoDup_cons in Hnd as [Hx Hnd]. cbn.
  apply elem_of_cons in Hin as [->|Hin].
  - rewrite String.eqb_refl. f_equal.
    clear IH. induction rows as [|y rows IH]; [done|].
    cbn. apply not_elem_of_cons in Hx as [Hne Hx].
    apply NoDup_cons in Hnd as [_ Hnd].
    assert (String.eqb (key y) (key x) = false) as -> by (by apply eqb_false).
    by apply IH.
  - assert (String.eqb (key x) (key r) = false) as ->.
    { apply eqb_false. intros Heq. apply Hx. rewrite Heq.
      apply list_elem_of_fmap. by exists r. }
    by apply IH.
Qed.

(** X27. A fetch of the browse page that runs for a loaded freelancer and
    whose read goes through replaces the list by exactly the open projects
    of the store that are of the selected category (all the open projects
    when none is selected).  In every other case (the user is still
    loading, the role is another one, the read fails) the list is left as
    it was: after a failed fetch on a change of category the list of the
    previous category stays.  The list is drawn only for a loaded
    freelancer. *)
Theorem browse_list_after_fetch (category_id : project → option string) (r : reply)
    (loadingUser : bool) (role : option string) (selected : string) (d : db)
    (listed : list project) :
  let result := BrowseJobs.fetchProjects category_id r loadingUser role selected d
                  listed in
  (loadingUser = false → role = Some "freelancer" → r = None →
   ∀ p, p ∈ result
        ↔ p ∈ projects d ∧ project_status p = "open"
          ∧ (selected = "" ∨ category_id p = Some selected))
  ∧ (loadingUser = true ∨ role ≠ Some "freelancer" ∨ is_Some r → result = listed)
  ∧ (∀ p, p ∈ BrowseJobs.shown loadingUser role result →
          loadingUser = false ∧ role = Some "freelancer").
Proof.
  intros result. subst result.
  unfold BrowseJobs.fetchProjects, BrowseJobs.open_projects, BrowseJobs.shown.
  split; [|split].
  - intros -> -> ->. cbn [negb andb]. rewrite bool_decide_eq_true_2 by done.
    intros p. rewrite elem_of_rev, elem_of_select, andb_true_iff, orb_true_iff.
    rewrite !eqb_true, bool_decide_eq_true. tauto.
  - intros [->|[Hrole|[err ->]]]; [done| |].
    + rewrite bool_decide_eq_false_2 by done. by rewrite andb_false_r.
    + by destruct (negb loadingUser && _).
  - intros p. destruct loadingUser; [by intros ?%elem_of_nil|].
    case_bool_decide as Hrole; [done|by intros ?%elem_of_nil].
Qed.

Lemma browse_list_after_fetch_witness :
  Sample.job ∈ BrowseJobs.fetchProjects (λ _, None) None false (Some "freelancer") ""
                 Sample.market []
  ∧ BrowseJobs.fetchProjects (λ _, None) (Some "Failed to fetch") false
      (Some "freelancer") "design" Sample.market [Sample.job]
    = [Sample.job].
Proof.
  split.
  - apply (proj1 (browse_list_after_fetch (λ _, None) None false (Some "freelancer") ""
                    Sample.market []) eq_refl eq_refl eq_refl Sample.job).
    split; [apply list_elem_of_here|]. split; [reflexivity|by left].
  - apply (proj1 (proj2 (browse_list_after_fetch (λ _, None) (Some "Failed to fetch")
                           false (Some "freelancer") "design" Sample.market
                           [Sample.job]))).
    right. right. by eexists.
Defined.

(** X28. Once a hire has updated the project, the project is gone from
    the browse list, for every category filter, while the other projects
    that were listed stay listed. *)
Theorem hired_project_leaves_browse_list (category_id : project → option string)
    (selected : string) (e : Hire.hire_env) (proposal : Hire.Proposal)
    (pg : Hire.page) (d : db) (P : Hire.Project) :
  Hire.project pg = Some P →
  Hire.on_insert e = None → Hire.on_project_update e = None →
  let d' := (Hire.handleHire e proposal pg d).2 in
  (∀ p, p ∈ BrowseJobs.open_projects category_id selected d' →
        project_id p ≠ Hire.pid P)
  ∧ (∀ p, p ∈ BrowseJobs.open_projects category_id selected d →
          project_id p ≠ Hire.pid P →
          p ∈ BrowseJobs.open_projects category_id selected d').
Proof.
  intros HP Hi Hu d'.
  assert (Hprojects : projects d'
                      = update_where (λ p, String.eqb (project_id p) (Hire.pid P))
                          (with_project_status "in_progress") (projects d)).
  { subst d'. unfold Hire.handleHire. rewrite HP, Hi, Hu. cbn [snd].
    by rewrite !HireFacts.projects_attempt. }
  unfold BrowseJobs.open_projects. rewrite Hprojects. split.
  - intros p. rewrite elem_of_rev, elem_of_select.
    intros [(row & _ & ->)%elem_of_update_where [Hopen _]%andb_true_iff].
    destruct (String.eqb (project_id row) (Hire.pid P)) eqn:Hid.
    + cbn in Hopen. discriminate.
    + by apply eqb_false in Hid.
  - intros p. rewrite !elem_of_rev, !elem_of_select.
    intros [Hin Hkeep] Hne. split; [|done].
    apply elem_of_update_where. exists p. split; [done|].
    apply eqb_false in Hne. by rewrite Hne.
Qed.

Lemma hired_project_leaves_browse_list_witness :
  let after := Hire.handleHire (Sample.writes_ok "c1")
                 (Hire.view_of_proposal Sample.bid_bob) Sample.review Sample.market in
  (Hire.project Sample.review = Some (Hire.view_of_project Sample.job)
   ∧ Sample.job ∈ BrowseJobs.open_projects (λ _, None) "" Sample.market)
  ∧ ∀ p, p ∈ BrowseJobs.open_projects (λ _, None) "" after.2 → project_id p ≠ "P1".
Proof.
  intros after. split; [split; [reflexivity|apply list_elem_of_here]|].
  exact (proj1 (hired_project_leaves_browse_list (λ _, None) ""
                  (Sample.writes_ok "c1") (Hire.view_of_proposal Sample.bid_bob)
                  Sample.review Sample.market _ eq_refl eq_refl eq_refl)).
Defined.

(** What a loaded list of own jobs tells about the store. *)
Lemma manage_fetch_inv (r : ManageJobs.read_replies) (user : option string) (d : db)
    (p : project) :
  p ∈ ManageJobs.shown (ManageJobs.fetchData r user d ManageJobs.initial) →
  ∃ uid prof,
    user = Some uid ∧ ManageJobs.on_profile r = None
    ∧ single (select_where (λ q, String.eqb (profile_id q) uid) (profiles d))
      = Some prof
    ∧ profile_role prof = "client"
    ∧ p ∈ projects d ∧ project_client p = uid.
Proof.
  unfold ManageJobs.shown, ManageJobs.fetchData.
  destruct user as [uid|]; [|by intros ?%elem_of_nil].
  destruct (ManageJobs.on_profile r); [by intros ?%elem_of_nil|].
  destruct (single (select_where _ (profiles d))) as [prof|] eqn:Hprof;
    [|by intros ?%elem_of_nil].
  cbn [ManageJobs.loading ManageJobs.role ManageJobs.projects].
  case_bool_decide as Hrole; [|by intros ?%elem_of_nil].
  injection Hrole as Hrole. rewrite Hrole. cbn.
  destruct (ManageJobs.on_projects r); [by intros ?%elem_of_nil|].
  rewrite elem_of_rev, elem_of_select. intros [Hin Hown%eqb_true].
  exists uid, prof. repeat split; done.
Qed.

(** X29. The manage-jobs page shows a project only to a signed-in user
    with role [client], and only projects whose [client_id] is that user;
    when its reads go through it shows every one of them. *)
Theorem own_jobs_listed (r : ManageJobs.read_replies) (user : option string) (d : db) :
  (∀ p, p ∈ ManageJobs.shown (ManageJobs.fetchData r user d ManageJobs.initial) →
        ∃ uid prof, user = Some uid ∧ prof ∈ profiles d ∧ profile_id prof = uid
                    ∧ profile_role prof = "client"
                    ∧ p ∈ projects d ∧ project_client p = uid)
  ∧ (∀ uid prof p,
       user = Some uid → ManageJobs.on_profile r = None →
       ManageJobs.on_projects r = None →
       single (select_where (λ q, String.eqb (profile_id q) uid) (profiles d))
       = Some prof →
       profile_role prof = "client" →
       p ∈ projects d → project_client p = uid →
       p ∈ ManageJobs.shown (ManageJobs.fetchData r user d ManageJobs.initial)).
Proof.
  split.
  - intros p (uid & prof & Hu & _ & Hprof & Hrole & Hin & Hown)%manage_fetch_inv.
    apply single_elem in Hprof as [Hprof Hid%eqb_true].
    exists uid, prof. repeat split; done.
  - intros uid prof p -> Hr Hq Hprof Hrole Hin Hown.
    unfold ManageJobs.shown, ManageJobs.fetchData. rewrite Hr, Hprof, Hrole, Hq.
    cbn [ManageJobs.loading ManageJobs.role ManageJobs.projects].
    rewrite bool_decide_eq_true_2 by done. rewrite String.eqb_refl.
    rewrite elem_of_rev, elem_of_select. split; [done|].
    by apply eqb_true.
Qed.

(** X30. Every job on the manage-jobs list opens: when project ids are
    unique and the reads go through, the review page of a listed job loads
    that job for the same user as a client and lists all the proposals the
    store has for it, newest first. *)
Theorem listed_job_opens_review (r : ManageJobs.read_replies)
    (r' : Hire.read_replies) (user : option string) (d : db) (p : project) :
  p ∈ ManageJobs.shown (ManageJobs.fetchData r user d ManageJobs.initial) →
  NoDup (map project_id (projects d)) →
  Hire.on_profile r' = None → Hire.on_project_read r' = None →
  Hire.on_proposals r' = None →
  let review := Hire.fetchData r' user (project_id p) d Hire.initial in
  Hire.project review = Some (Hire.view_of_project p)
  ∧ Hire.role review = Some "client"
  ∧ Hire.proposals review
    = map Hire.view_of_proposal
        (rev (select_where (λ q, String.eqb (proposal_project q) (project_id p))
                           (proposals d)))
  ∧ Hire.render review ≠ Hire.ClientsOnly ∧ Hire.render review ≠ Hire.Spinner.
Proof.
  intros (uid & prof & -> & _ & Hprof & Hrole & Hin & Hown)%manage_fetch_inv
    Hnd Hr1 Hr2 Hr3 review.
  assert (Hreview : review
    = {| Hire.project := Some (Hire.view_of_project p);
         Hire.proposals :=
           map Hire.view_of_proposal
             (rev (select_where (λ q, String.eqb (proposal_project q) (project_id p))
                                (proposals d)));
         Hire.role := Some "client"; Hire.loading := false;
         Hire.message := None; Hire.actionLoading := None |}).
  { subst review. unfold Hire.fetchData. rewrite Hr1, Hprof, Hr2.
    rewrite (select_unique project_id) by done. cbn [single].
    rewrite Hrole, Hown, Hr3, (String.eqb_refl uid). reflexivity. }
  rewrite Hreview. cbn [Hire.project Hire.role Hire.proposals].
  split; [done|]. split; [done|]. split; [done|].
  unfold Hire.render. cbn. by rewrite bool_decide_eq_true_2.
Qed.

Lemma listed_job_opens_review_witness :
  let r := {| ManageJobs.on_profile := None; ManageJobs.on_projects := None |} in
  (Sample.job ∈ ManageJobs.shown
                  (ManageJobs.fetchData r (Some Sample.alice) Sample.market
                     ManageJobs.initial)
   ∧ NoDup (map project_id (projects Sample.market)))
  ∧ Hire.project (Hire.fetchData Sample.reads_ok (Some Sample.alice) "P1"
                    Sample.market Hire.initial)
    = Some (Hire.view_of_project Sample.job).
Proof.
  intros r.
  assert (Hin : Sample.job ∈ ManageJobs.shown
                  (ManageJobs.fetchData r (Some Sample.alice) Sample.market
                     ManageJobs.initial)) by apply list_elem_of_here.
  assert (Hnd : NoDup (map project_id (projects Sample.market)))
    by (apply NoDup_singleton).
  split; [by split|].
  exact (proj1 (listed_job_opens_review r Sample.reads_ok (Some Sample.alice)
                  Sample.market Sample.job Hin Hnd eq_refl eq_refl eq_refl)).
Defined.

End ListFacts.
